(** * Termux git server: a shallow embedding of [script.py]

    The server keeps git repositories under one directory and answers
    HTTP requests by calling the [git] binary.  Everything the program
    cannot decide by itself (the home directory, what lies on disk, what
    a [git] process does, how the Python library words its own
    exceptions) is gathered in a [World]; the functions of the script are
    written over it in a small state-and-exception monad, in the order
    of the statements of the source. *)

From Stdlib Require Import String Ascii List ZArith Bool Lia.
From Stdlib Require Import Sorted Permutation.
Import ListNotations.
Local Open Scope list_scope.
Local Open Scope string_scope.
Local Open Scope Z_scope.

(** ** Python strings

    A [str] is modelled by [string]; a character is a code point below
    256. *)
Module PyStr.

(** [not s] is false exactly for the empty string. *)
Definition truthy (s : string) : bool :=
  match s with
  | EmptyString => false
  | String _ _ => true
  end.

(** [c in s] for a one-character [c]. *)
Fixpoint contains (c : ascii) (s : string) : bool :=
  match s with
  | EmptyString => false
  | String a s' => Ascii.eqb a c || contains c s'
  end.

(** [s.startswith(p)]. *)
Fixpoint startswith (p s : string) : bool :=
  match p, s with
  | EmptyString, _ => true
  | String a p', String b s' => Ascii.eqb a b && startswith p' s'
  | String _ _, EmptyString => false
  end.

(** [s.removeprefix(p)] when [s] starts with [p], as an option. *)
Fixpoint strip_prefix (p s : string) : option string :=
  match p, s with
  | EmptyString, _ => Some s
  | String a p', String b s' =>
      if Ascii.eqb a b then strip_prefix p' s' else None
  | String _ _, EmptyString => None
  end.

(** [s.endswith(String c "")]. *)
Fixpoint endswith_char (c : ascii) (s : string) : bool :=
  match s with
  | EmptyString => false
  | String a EmptyString => Ascii.eqb a c
  | String _ s' => endswith_char c s'
  end.

(** [s.rstrip(c)] for a one-character [c]. *)
Fixpoint rstrip_char (c : ascii) (s : string) : string :=
  match s with
  | EmptyString => EmptyString
  | String a s' =>
      match rstrip_char c s' with
      | EmptyString => if Ascii.eqb a c then EmptyString else String a EmptyString
      | r => String a r
      end
  end.

(** [s.split(c)]: never empty; the pieces hold no [c]. *)
Fixpoint split (c : ascii) (s : string) : list string :=
  match s with
  | EmptyString => [EmptyString]
  | String a s' =>
      if Ascii.eqb a c then EmptyString :: split c s'
      else match split c s' with
           | h :: t => String a h :: t
           | [] => [String a EmptyString]
           end
  end.

(** [s.removesuffix(suf)]. *)
Fixpoint removesuffix (suf s : string) : string :=
  match s with
  | EmptyString => EmptyString
  | String a s' =>
      if String.eqb s suf then EmptyString else String a (removesuffix suf s')
  end.

(** [str.isspace] on one character: tab, line feed, vertical tab, form
    feed, carriage return, the four separators 28..31, space, next-line
    and no-break space. *)
Definition isspace (a : ascii) : bool :=
  let n := nat_of_ascii a in
  (Nat.leb 9 n && Nat.leb n 13) || (Nat.leb 28 n && Nat.leb n 32)
  || Nat.eqb n 133 || Nat.eqb n 160.

Fixpoint lstrip (s : string) : string :=
  match s with
  | EmptyString => EmptyString
  | String a s' => if isspace a then lstrip s' else s
  end.

Fixpoint rstrip (s : string) : string :=
  match s with
  | EmptyString => EmptyString
  | String a s' =>
      match rstrip s' with
      | EmptyString => if isspace a then EmptyString else String a EmptyString
      | r => String a r
      end
  end.

(** [s.strip()]. *)
Definition strip (s : string) : string := rstrip (lstrip s).

(** [a or b] on strings. *)
Definition or_else (a b : string) : string := if truthy a then a else b.

(** [s or None]. *)
Definition or_none (s : string) : option string :=
  if truthy s then Some s else None.

(** The one-character string of the double quote. *)
Definition dquote : string := String (ascii_of_nat 34) EmptyString.

End PyStr.
Import PyStr.

(** ** Python lists of strings *)

(** [sorted(names)]: the names in increasing order of their code
    points, here by insertion. *)
Fixpoint insert_sorted (x : string) (l : list string) : list string :=
  match l with
  | [] => [x]
  | y :: l' => if String.ltb x y then x :: l else y :: insert_sorted x l'
  end.

Fixpoint sorted (l : list string) : list string :=
  match l with
  | [] => []
  | x :: l' => insert_sorted x (sorted l')
  end.

(** ** [os.path] *)

(** [os.path.join(a, b)] of posixpath. *)
Definition os_path_join (a b : string) : string :=
  if startswith "/" b then b
  else if negb (truthy a) || endswith_char "/" a then a ++ b
  else a ++ "/" ++ b.

(** [os.path.expanduser("~/Repositories")] when the home directory is
    [home]: the home directory without its trailing slashes, then the rest
    of the path.  (The result is never empty, so the [or "/"] of the
    library does not fire.) *)
Definition expanduser_repositories (home : string) : string :=
  rstrip_char "/" home ++ "/Repositories".

(** ** Exceptions *)

(** Error codes of the operating system, by the Python class they raise:
    [FileExistsError], [FileNotFoundError], [PermissionError],
    [NotADirectoryError], and a plain [OSError] for the rest. *)
Inductive errno := EEXIST | ENOENT | EACCES | ENOTDIR | EOTHER.

(** The exceptions that reach the handlers.  The first four are raised by
    the script with a message ([ValueError] also by [subprocess], for an
    argument that holds a NUL); the others by [os] and [subprocess].
    [UnicodeDecodeError] is a subclass of [ValueError]. *)
Inductive exn :=
| ValueError (msg : string)
| FileExistsError (msg : string)
| FileNotFoundError (msg : string)
| RuntimeError (msg : string)
| OSError (code : errno) (filename : string)
| CalledProcessError (returncode : Z) (cmd : list string) (stdout stderr : string)
| TimeoutExpired (cmd : list string) (timeout : nat)
| UnicodeDecodeError.

(** [isinstance(e, C)] for the classes the handlers name. *)
Definition is_ValueError (e : exn) : bool :=
  match e with ValueError _ | UnicodeDecodeError => true | _ => false end.

Definition is_FileExistsError (e : exn) : bool :=
  match e with
  | FileExistsError _ | OSError EEXIST _ => true
  | _ => false
  end.

Definition is_FileNotFoundError (e : exn) : bool :=
  match e with
  | FileNotFoundError _ | OSError ENOENT _ => true
  | _ => false
  end.

Definition is_RuntimeError (e : exn) : bool :=
  match e with RuntimeError _ => true | _ => false end.

Definition is_CalledProcessError (e : exn) : bool :=
  match e with CalledProcessError _ _ _ _ => true | _ => false end.

(** ** The world *)

(** A file-system node: a file, or a directory with its entries. *)
#[warnings="-register-all"]
Inductive node := File | Dir (entries : list (string * node)).

Fixpoint lookup (name : string) (es : list (string * node)) : option node :=
  match es with
  | [] => None
  | (n, x) :: es' => if String.eqb n name then Some x else lookup name es'
  end.

(** How a call of [subprocess.run] on a [git] command ends: the process
    exits with a code and its two captured streams, it is killed at the
    time bound, it cannot be started, or the call is refused before any
    process exists (an argument that holds a NUL). *)
Inductive outcome :=
| Exited (returncode : Z) (stdout stderr : string)
| TimedOut
| SpawnFailed (code : errno)
| Refused.

(** What the program does to the outside, in order: [Spawned] is a call
    of [subprocess.run]. *)
Inductive event :=
| MadeDirs (path : string)
| Spawned (argv : list string) (timeout : nat).

(** The world.  The disk is explicit below REPOS_DIR, as the tree
    [repos]; every other path is answered by [elsewhere].  A [git]
    process is seen through the way it ends: what it writes to the disk
    is not followed, so the tree stays as it was when a process has
    run. *)
Record World := mkWorld {
  env_home : string;                  (* the user's home directory *)
  repos : option node;                (* what REPOS_DIR names, if anything *)
  elsewhere : string -> option node;  (* any path that leaves REPOS_DIR *)
  mkdir_fault : option errno;         (* why REPOS_DIR cannot be created *)
  git : list string -> nat -> outcome;(* argv, time bound: how it ends *)
  utf8 : list string -> nat -> bool;  (* its captured streams decode as text *)
  lib_str : exn -> string;            (* str(e) of a library exception *)
  trace : list event                  (* newest first *)
}.

(** [REPOS_DIR = os.path.expanduser("~/Repositories")]. *)
Definition REPOS_DIR (w : World) : string := expanduser_repositories (env_home w).

Definition log (e : event) (w : World) : World :=
  mkWorld (env_home w) (repos w) (elsewhere w) (mkdir_fault w) (git w)
          (utf8 w) (lib_str w) (e :: trace w).

Definition with_repos (r : option node) (w : World) : World :=
  mkWorld (env_home w) r (elsewhere w) (mkdir_fault w) (git w)
          (utf8 w) (lib_str w) (trace w).

(** The events of a trace that start a process. *)
Definition is_spawn (e : event) : bool :=
  match e with Spawned _ _ => true | MadeDirs _ => false end.

Definition spawns (w : World) : list event := filter is_spawn (trace w).

(** *** Path resolution

    Below REPOS_DIR a path is walked component by component through the
    tree; [stack] holds the directories above the current one.  A [..]
    at the top leaves the tree. *)
Inductive walked := Found (n : node) | Absent | Escaped.

Fixpoint walk (stack : list node) (cur : node) (comps : list string) : walked :=
  match comps with
  | [] => Found cur
  | c :: rest =>
      match cur with
      | File => Absent
      | Dir es =>
          if String.eqb c "" || String.eqb c "." then walk stack cur rest
          else if String.eqb c ".." then
            match stack with
            | [] => Escaped
            | parent :: up => walk up parent rest
            end
          else
            match lookup c es with
            | Some child => walk (cur :: stack) child rest
            | None => Absent
            end
      end
  end.

(** [os.stat(p)], without symbolic links: [None] when nothing is there. *)
Definition stat (w : World) (p : string) : option node :=
  match strip_prefix (REPOS_DIR w) p with
  | Some EmptyString => repos w
  | Some (String "/" rest) =>
      match repos w with
      | None => None
      | Some r =>
          match walk [] r (split "/" rest) with
          | Found n => Some n
          | Absent => None
          | Escaped => elsewhere w p
          end
      end
  | _ => elsewhere w p
  end.

Definition os_path_exists (w : World) (p : string) : bool :=
  match stat w p with Some _ => true | None => false end.

Definition os_path_isdir (w : World) (p : string) : bool :=
  match stat w p with Some (Dir _) => true | _ => false end.

(** ** The monad: a world in, a value or an exception and a world out *)

Inductive result (A : Type) :=
| Ok (a : A)
| Raise (e : exn).
Arguments Ok {A} a.
Arguments Raise {A} e.

Definition M (A : Type) : Type := World -> result A * World.

Definition ret {A} (a : A) : M A := fun w => (Ok a, w).

Definition raise {A} (e : exn) : M A := fun w => (Raise e, w).

Definition bind {A B} (m : M A) (k : A -> M B) : M B :=
  fun w =>
    match m w with
    | (Ok a, w') => k a w'
    | (Raise e, w') => (Raise e, w')
    end.

(** Read the world without changing it. *)
Definition gets {A} (f : World -> A) : M A := fun w => (Ok (f w), w).

(** [try: m  except Exception as e: h e]. *)
Definition try_except {A} (m : M A) (h : exn -> M A) : M A :=
  fun w =>
    match m w with
    | (Ok a, w') => (Ok a, w')
    | (Raise e, w') => h e w'
    end.

Notation "x <- m ;; k" := (bind m (fun x => k))
  (at level 61, m at next level, right associativity).
Notation "m ;;; k" := (bind m (fun _ => k))
  (at level 61, right associativity).

(** ** [os] and [subprocess] *)

(** [os.makedirs(REPOS_DIR, exist_ok=True)]: nothing to do on a
    directory; [FileExistsError] on anything else that is there; when
    nothing is there the directory is created empty, unless the system
    refuses. *)
Definition os_makedirs_repos : M unit :=
  fun w =>
    match repos w with
    | Some (Dir _) => (Ok tt, w)
    | Some File => (Raise (OSError EEXIST (REPOS_DIR w)), w)
    | None =>
        match mkdir_fault w with
        | Some code => (Raise (OSError code (REPOS_DIR w)), w)
        | None => (Ok tt, log (MadeDirs (REPOS_DIR w)) (with_repos (Some (Dir [])) w))
        end
    end.

(** [os.listdir(p)]. *)
Definition os_listdir (p : string) : M (list string) :=
  fun w =>
    match stat w p with
    | Some (Dir es) => (Ok (map fst es), w)
    | Some File => (Raise (OSError ENOTDIR p), w)
    | None => (Raise (OSError ENOENT p), w)
    end.

Record CompletedProcess := mkCompleted {
  cp_returncode : Z;
  cp_stdout : string;
  cp_stderr : string
}.

(** [subprocess.run(argv, check=check, capture_output=True, text=text,
    timeout=t)].  A refused call raises [ValueError]; with [text], the
    captured streams are decoded when the process has exited, before
    the exit code is looked at, and streams that do not decode raise
    [UnicodeDecodeError]. *)
Definition subprocess_run (argv : list string) (check text : bool) (timeout : nat)
  : M CompletedProcess :=
  fun w =>
    let w' := log (Spawned argv timeout) w in
    match git w argv timeout with
    | Refused => (Raise (ValueError "embedded null byte"), w')
    | SpawnFailed code => (Raise (OSError code "git"), w')
    | TimedOut => (Raise (TimeoutExpired argv timeout), w')
    | Exited rc out err =>
        if text && negb (utf8 w argv timeout)
        then (Raise UnicodeDecodeError, w')
        else if check && negb (rc =? 0)
        then (Raise (CalledProcessError rc argv out err), w')
        else (Ok (mkCompleted rc out err), w')
    end.

(** [str(e)]: the message for the exceptions the script raises, the
    library's own text for the others. *)
Definition py_str (w : World) (e : exn) : string :=
  match e with
  | ValueError m | FileExistsError m | FileNotFoundError m | RuntimeError m => m
  | _ => lib_str w e
  end.

(** ** The script *)

Definition ensure_repos_dir : M unit := os_makedirs_repos.

Definition is_git_dir (w : World) (path : string) : bool :=
  os_path_isdir w (os_path_join path ".git").

Record RepoRecord := mkRecord {
  rec_name : string;
  rec_path : string;
  currentBranch : option string;
  isClean : option bool
}.

(** The [try] block of [get_repos]: the two locals start as [None]; an
    exception of either probe leaves them as they are at that point. *)
Definition probe (full : string) : M (option string * option bool) :=
  try_except
    (r <- subprocess_run ["git"; "-C"; full; "rev-parse"; "--abbrev-ref"; "HEAD"]
                         false true 5 ;;
     let current_branch :=
       if cp_returncode r =? 0 then or_none (strip (cp_stdout r)) else None in
     try_except
       (r2 <- subprocess_run ["git"; "-C"; full; "status"; "--porcelain"]
                             false true 5 ;;
        ret (current_branch,
             Some ((cp_returncode r2 =? 0) && String.eqb (strip (cp_stdout r2)) "")))
       (fun _ => ret (current_branch, None)))
    (fun _ => ret (None, None)).

(** The [for] loop of [get_repos]. *)
Fixpoint scan (names : list string) : M (list RepoRecord) :=
  match names with
  | [] => ret []
  | name :: rest =>
      if startswith "." name then scan rest
      else
        full <- gets (fun w => os_path_join (REPOS_DIR w) name) ;;
        is_repo <- gets (fun w => os_path_isdir w full && is_git_dir w full) ;;
        if negb is_repo then scan rest
        else
          fields <- probe full ;;
          result <- scan rest ;;
          ret (mkRecord name full (fst fields) (snd fields) :: result)
  end.

Definition get_repos : M (list RepoRecord) :=
  ensure_repos_dir ;;;
  root <- gets REPOS_DIR ;;
  names <- os_listdir root ;;
  scan (sorted names).

Definition already_exists (name : string) : string :=
  "A directory named " ++ dquote ++ name ++ dquote ++ " already exists".

Definition init_repo (name : string) : M (string * string) :=
  if negb (truthy name) || contains "/" name || contains "\" name
     || startswith "." name
  then raise (ValueError "Invalid repo name")
  else
    ensure_repos_dir ;;;
    full <- gets (fun w => os_path_join (REPOS_DIR w) name) ;;
    present <- gets (fun w => os_path_exists w full) ;;
    if present then raise (FileExistsError (already_exists name))
    else
      subprocess_run ["git"; "init"; full] true false 10 ;;;
      ret (name, full).

(** [url.rstrip("/").split("/")[-1].removesuffix(".git") or "repo"]. *)
Definition derive_name (url : string) : string :=
  or_else (removesuffix ".git" (last (split "/" (rstrip_char "/" url)) "")) "repo".

Definition clone_repo (url : string) (name : option string) : M (string * string) :=
  if negb (truthy url) then raise (ValueError "Clone URL required")
  else
    ensure_repos_dir ;;;
    let name := match name with
                | None => derive_name url
                | Some n => n
                end in
    if contains "/" name || contains "\" name || startswith "." name
    then raise (ValueError "Invalid repo name")
    else
      full <- gets (fun w => os_path_join (REPOS_DIR w) name) ;;
      present <- gets (fun w => os_path_exists w full) ;;
      if present then raise (FileExistsError (already_exists name))
      else
        subprocess_run ["git"; "clone"; url; full] true true 300 ;;;
        ret (name, full).

Definition run_git (repo_name : string) (args : list string) : M string :=
  match args with
  | [] => ret ""
  | _ :: _ =>
      full <- gets (fun w => os_path_join (REPOS_DIR w) repo_name) ;;
      is_repo <- gets (fun w => is_git_dir w full) ;;
      if negb is_repo
      then raise (FileNotFoundError ("Not a git repository: " ++ repo_name))
      else
        r <- subprocess_run (["git"; "-C"; full] ++ args) false true 60 ;;
        let out := strip (cp_stdout r) in
        let err := strip (cp_stderr r) in
        if negb (cp_returncode r =? 0) && truthy err
        then raise (RuntimeError err)
        else ret (if truthy out then out else err)
  end.

(** ** The request handler *)

(** The JSON body of a request, when it is an object whose fields
    [name], [url] and [repo] hold strings and whose field [args] holds
    a list of strings, field by field: [None] is an absent field
    ([body.get] gives [None]); [args] is [None] also when the field is
    not a list. *)
Record Body := mkBody {
  body_name : option string;
  body_url : option string;
  body_repo : option string;
  body_args : option (list string)
}.

Definition empty_body : Body := mkBody None None None None.

(** What [_json] writes. *)
Inductive Payload :=
| JError (message : string)                  (* {"error": message} *)
| JOutput (output : string)                  (* {"output": output} *)
| JRepo (name path : string)                 (* {"name": .., "path": ..} *)
| JRepos (records : list RepoRecord)         (* the array of records *)
| JHealth (reposDir : string)                (* {"ok": true, "reposDir": ..} *)
| NoPayload.                                 (* send_response(404) alone *)

Record Response := mkResponse {
  status : Z;
  payload : Payload
}.

(** [self._json(data, status)] and [self._error(message, status)]. *)
Definition _json (data : Payload) (st : Z) : Response := mkResponse st data.

Definition _error (message : string) (st : Z) : Response :=
  _json (JError message) st.

(** [not v] for a field that holds a string or is absent. *)
Definition missing (v : option string) : bool :=
  match v with
  | None => true
  | Some s => negb (truthy s)
  end.

(** The [try] of the [/init] branch. *)
Definition respond_init (r : result (string * string)) (w : World) : Response :=
  match r with
  | Ok (name, path) => _json (JRepo name path) 201
  | Raise e =>
      if is_FileExistsError e then _error (py_str w e) 409
      else if is_ValueError e then _error (py_str w e) 400
      else _error (py_str w e) 500
  end.

(** The [try] of the [/clone] branch. *)
Definition respond_clone (r : result (string * string)) (w : World) : Response :=
  match r with
  | Ok (name, path) => _json (JRepo name path) 201
  | Raise e =>
      if is_FileExistsError e then _error (py_str w e) 409
      else if is_ValueError e then _error (py_str w e) 400
      else
        match e with
        | CalledProcessError _ _ out err =>
            _error (strip (or_else err (or_else out (py_str w e)))) 400
        | _ => _error (py_str w e) 500
        end
  end.

(** The [try] of the [/run] branch. *)
Definition respond_run (r : result string) (w : World) : Response :=
  match r with
  | Ok output => _json (JOutput output) 200
  | Raise e =>
      if is_FileNotFoundError e then _error (py_str w e) 404
      else if is_RuntimeError e then _error (py_str w e) 400
      else _error (py_str w e) 500
  end.

(** Run an operation and answer from its result. *)
Definition answer {A} (m : M A) (respond : result A -> World -> Response)
  : World -> Response * World :=
  fun w => let (r, w') := m w in (respond r w', w').

Definition do_POST (path : string) (body : Body) : World -> Response * World :=
  fun w =>
    if String.eqb path "/init" then
      match body_name body with
      | Some name =>
          if negb (truthy name) then (_error "Missing 'name'" 400, w)
          else answer (init_repo name) respond_init w
      | None => (_error "Missing 'name'" 400, w)
      end
    else if String.eqb path "/clone" then
      match body_url body with
      | Some url =>
          if negb (truthy url) then (_error "Missing 'url'" 400, w)
          else answer (clone_repo url (body_name body)) respond_clone w
      | None => (_error "Missing 'url'" 400, w)
      end
    else if String.eqb path "/run" then
      match body_repo body, body_args body with
      | Some repo, Some args =>
          if negb (truthy repo) then (_error "Missing 'repo' or 'args' (list)" 400, w)
          else answer (run_git repo args) respond_run w
      | _, _ => (_error "Missing 'repo' or 'args' (list)" 400, w)
      end
    else (mkResponse 404 NoPayload, w).

Definition do_GET (path : string) : World -> Response * World :=
  fun w =>
    if String.eqb path "/repos" then
      answer get_repos
             (fun r w' =>
                match r with
                | Ok records => _json (JRepos records) 200
                | Raise e => _error (py_str w' e) 500
                end) w
    else if String.eqb path "/health" then (_json (JHealth (REPOS_DIR w)) 200, w)
    else (mkResponse 404 NoPayload, w).



(** * Vocabulary of the properties *)

(** The invariant of a repository name: not empty, no path separator,
    no leading dot. *)
Definition valid_name (s : string) : Prop :=
  s <> "" /\ contains "/" s = false /\ contains "\" s = false
  /\ startswith "." s = false.

(** A name with a separator inside, or a leading dot. *)
Definition rejected_name (s : string) : Prop :=
  contains "/" s = true \/ contains "\" s = true \/ startswith "." s = true.

(** The name [clone_repo] works with: the supplied one, or the one
    derived from the URL. *)
Definition clone_name (url : string) (name : option string) : string :=
  match name with
  | None => derive_name url
  | Some n => n
  end.

(** The root is a directory, or is missing and can be created. *)
Definition root_ready (w : World) : bool :=
  match repos w with
  | Some (Dir _) => true
  | Some File => false
  | None => match mkdir_fault w with None => true | Some _ => false end
  end.

(** The world once the root has been ensured. *)
Definition ensured (w : World) : World :=
  match repos w with
  | None => log (MadeDirs (REPOS_DIR w)) (with_repos (Some (Dir [])) w)
  | Some _ => w
  end.

(** An entry of the root that the listing keeps: no leading dot, a
    directory, with a [.git] directory inside. *)
Definition listed (w : World) (name : string) : bool :=
  negb (startswith "." name)
  && os_path_isdir w (os_path_join (REPOS_DIR w) name)
  && is_git_dir w (os_path_join (REPOS_DIR w) name).

(** The names [os.listdir] gives for the root. *)
Definition root_names (w : World) : list string :=
  match repos w with
  | Some (Dir es) => map fst es
  | _ => []
  end.

(** The two probes of a repository at [full]. *)
Definition branch_argv (full : string) : list string :=
  ["git"; "-C"; full; "rev-parse"; "--abbrev-ref"; "HEAD"].

Definition status_argv (full : string) : list string :=
  ["git"; "-C"; full; "status"; "--porcelain"].

Definition exited (o : outcome) : bool :=
  match o with Exited _ _ _ => true | _ => false end.

(** A text call without [check] hands over a completed process: the
    process exited by itself and its captured streams decode. *)
Definition returned (w : World) (argv : list string) (t : nat) : bool :=
  exited (git w argv t) && utf8 w argv t.

(** Bodies of requests. *)
Definition init_body (name : string) : Body := mkBody (Some name) None None None.

Definition clone_body (url : string) (name : option string) : Body :=
  mkBody name (Some url) None None.

Definition run_body (repo : string) (args : list string) : Body :=
  mkBody None None (Some repo) (Some args).

(** Two worlds that differ at most in their traces. *)
Definition same_outside (w w' : World) : Prop :=
  env_home w' = env_home w /\ repos w' = repos w /\ elsewhere w' = elsewhere w
  /\ mkdir_fault w' = mkdir_fault w /\ git w' = git w /\ lib_str w' = lib_str w
  /\ utf8 w' = utf8 w.

(** ** Example worlds *)

(** Nothing outside the root, the home directory [/home/u], a library
    that words every exception of its own as [error]. *)
Definition nothing_elsewhere : string -> option node := fun _ => None.

Definition plain_lib_str : exn -> string := fun _ => "error".

Definition all_utf8 : list string -> nat -> bool := fun _ _ => true.

Definition world_of (root : option node) (g : list string -> nat -> outcome)
  : World :=
  mkWorld "/home/u" root nothing_elsewhere None g all_utf8 plain_lib_str [].

(** Ways for [git] to end, whatever it is asked. *)
Definition git_succeeds : list string -> nat -> outcome :=
  fun _ _ => Exited 0 "" "".

Definition git_times_out : list string -> nat -> outcome :=
  fun _ _ => TimedOut.

Definition git_fails : list string -> nat -> outcome :=
  fun _ _ => Exited 128 "" "fatal: not a git repository".

(** A working copy, and a root that holds the working copy [demo]. *)
Definition working_copy : node := Dir [(".git", Dir [])].

Definition demo_root : option node := Some (Dir [("demo", working_copy)]).

(** A world with a working copy next to the root, at
    [/home/u/somedir], and an empty root. *)
Definition beside_root : string -> option node :=
  fun p => if String.eqb p "/home/u/Repositories/../somedir/.git"
           then Some (Dir []) else None.

Definition escape_world : World :=
  mkWorld "/home/u" (Some (Dir [])) beside_root None git_succeeds all_utf8
          plain_lib_str [].

(** A [git] that exits with code 1 and a blank standard error. *)
Definition git_fails_blank : list string -> nat -> outcome :=
  fun _ _ => Exited 1 "" " ".

(** What the two probes leave in the two fields, by the way they end
    ([o1], [o2]) and by whether their streams decode ([d1], [d2]). *)
Definition probe_fields (o1 : outcome) (d1 : bool) (o2 : outcome) (d2 : bool)
  : option string * option bool :=
  match o1, d1 with
  | Exited rc1 out1 _, true =>
      let current_branch := if rc1 =? 0 then or_none (strip out1) else None in
      match o2, d2 with
      | Exited rc2 out2 _, true =>
          (current_branch, Some ((rc2 =? 0) && String.eqb (strip out2) ""))
      | _, _ => (current_branch, None)
      end
  | _, _ => (None, None)
  end.

(** A probe fails: a nonzero exit, a timeout, or no start at all. *)
Definition probe_failed (o : outcome) : bool :=
  match o with
  | Exited rc _ _ => negb (rc =? 0)
  | _ => true
  end.

(** The record [get_repos] builds for the entry [name] of the root. *)
Definition record_of (w : World) (name : string) : RepoRecord :=
  let full := os_path_join (REPOS_DIR w) name in
  let fields := probe_fields (git w (branch_argv full) 5)
                             (utf8 w (branch_argv full) 5)
                             (git w (status_argv full) 5)
                             (utf8 w (status_argv full) 5) in
  mkRecord name full (fst fields) (snd fields).

(** The order of [sorted]: by code points, as [str] compares. *)
Definition name_le (a b : string) : Prop := String.leb a b = true.

(** Several events, the newest first, added to the trace. *)
Definition log_all (es : list event) (w : World) : World := fold_right log w es.

(** The probes [get_repos] runs on the repository at the entry [name],
    the newest first: the branch probe, and after it the status probe
    unless the branch probe raised. *)
Definition probes_run (w : World) (name : string) : list event :=
  let full := os_path_join (REPOS_DIR w) name in
  if returned w (branch_argv full) 5
  then [Spawned (status_argv full) 5; Spawned (branch_argv full) 5]
  else [Spawned (branch_argv full) 5].

(** A machine without [git]: no process can be started. *)
Definition git_missing : list string -> nat -> outcome :=
  fun _ _ => SpawnFailed ENOENT.

(** * Properties *)

(** ** Strings and paths *)

Lemma truthy_true_iff (s : string) : truthy s = true <-> s <> "".
Proof.
  destruct s; simpl; split; intro H; easy.
Qed.

Lemma truthy_append_r (a b : string) : truthy b = true -> truthy (a ++ b) = true.
Proof. now destruct a. Qed.

Lemma strip_prefix_append (p r : string) : strip_prefix p (p ++ r) = Some r.
Proof.
  induction p as [|a p IH]; simpl.
  - now destruct r.
  - now rewrite Ascii.eqb_refl.
Qed.

Lemma split_no_sep (c : ascii) (s : string) :
  contains c s = false -> split c s = [s].
Proof.
  induction s as [|a s IH]; simpl; intro H.
  - reflexivity.
  - apply orb_false_iff in H as [Ha Hs].
    now rewrite Ha, (IH Hs).
Qed.

Lemma endswith_char_append (c : ascii) (a b : string) :
  truthy b = true -> endswith_char c (a ++ b) = endswith_char c b.
Proof.
  intro Hb. induction a as [|x a IH]; simpl.
  - reflexivity.
  - rewrite <- IH. destruct (a ++ b) eqn:E.
    + destruct a; simpl in E; [subst b|]; discriminate.
    + reflexivity.
Qed.

(** The repository root is a proper path: not empty, no slash at its
    end. *)
Lemma REPOS_DIR_truthy (w : World) : truthy (REPOS_DIR w) = true.
Proof. now apply truthy_append_r. Qed.

Lemma REPOS_DIR_no_trailing_slash (w : World) :
  endswith_char "/" (REPOS_DIR w) = false.
Proof. unfold REPOS_DIR, expanduser_repositories. now rewrite endswith_char_append. Qed.

(** A name that does not start with a slash lands below the root. *)
Lemma join_REPOS_DIR (w : World) (name : string) :
  startswith "/" name = false ->
  os_path_join (REPOS_DIR w) name = REPOS_DIR w ++ "/" ++ name.
Proof.
  intro H. unfold os_path_join.
  now rewrite H, REPOS_DIR_truthy, REPOS_DIR_no_trailing_slash.
Qed.

Lemma contains_slash_startswith (name : string) :
  contains "/" name = false -> startswith "/" name = false.
Proof.
  destruct name as [|a s]; cbn [contains startswith]; [easy|].
  intro H. apply orb_false_iff in H as [Ha _].
  now rewrite Ascii.eqb_sym, Ha.
Qed.

Lemma append_assoc (a b c : string) : (a ++ b) ++ c = a ++ (b ++ c).
Proof. induction a; simpl; congruence. Qed.

(** [stat] of a path below the root walks the tree of the root. *)
Lemma stat_below_root (w : World) (rest : string) :
  stat w (REPOS_DIR w ++ "/" ++ rest) =
  match repos w with
  | None => None
  | Some r =>
      match walk [] r (split "/" rest) with
      | Found n => Some n
      | Absent => None
      | Escaped => elsewhere w (REPOS_DIR w ++ "/" ++ rest)
      end
  end.
Proof. unfold stat. now rewrite strip_prefix_append. Qed.

(** ** Repository names *)

Lemma rejected_name_truthy (s : string) : rejected_name s -> truthy s = true.
Proof. destruct s; [|easy]. now intros [H|[H|H]]. Qed.

Lemma rejected_name_check (s : string) :
  rejected_name s ->
  contains "/" s || contains "\" s || startswith "." s = true.
Proof. intros [H|[H|H]]; rewrite H; rewrite ?orb_true_r; reflexivity. Qed.

(** A valid name is one plain component: neither empty nor [.] nor [..]. *)
Lemma walk_valid_name (r : node) (name : string) :
  valid_name name ->
  walk [] r (split "/" name) =
  match r with
  | File => Absent
  | Dir es => match lookup name es with
              | Some child => Found child
              | None => Absent
              end
  end.
Proof.
  intros (H0 & H1 & _ & H3). rewrite (split_no_sep _ _ H1). simpl.
  destruct r as [|es]; [reflexivity|].
  destruct name as [|a s]; [easy|].
  assert (Ha : Ascii.eqb a "." = false).
  { cbn [startswith] in H3. rewrite Ascii.eqb_sym in H3.
    now destruct (Ascii.eqb a "."), s. }
  assert (E1 : String.eqb (String a s) "." = false).
  { simpl. now rewrite Ha. }
  assert (E2 : String.eqb (String a s) ".." = false).
  { simpl. now rewrite Ha. }
  rewrite E1, E2. simpl. now destruct (lookup (String a s) es).
Qed.

(** ** The world under the operations *)

Lemma ensure_ready (w : World) :
  root_ready w = true -> ensure_repos_dir w = (Ok tt, ensured w).
Proof.
  unfold root_ready, ensure_repos_dir, os_makedirs_repos, ensured.
  destruct (repos w) as [[|es]|]; try easy.
  now destruct (mkdir_fault w).
Qed.

Lemma ensure_not_ready (w : World) :
  root_ready w = false ->
  exists code, ensure_repos_dir w = (Raise (OSError code (REPOS_DIR w)), w).
Proof.
  unfold root_ready, ensure_repos_dir, os_makedirs_repos.
  destruct (repos w) as [[|es]|]; try easy.
  - now exists EEXIST.
  - destruct (mkdir_fault w) as [code|]; [now exists code|easy].
Qed.

Lemma REPOS_DIR_ensured (w : World) : REPOS_DIR (ensured w) = REPOS_DIR w.
Proof. unfold ensured. now destruct (repos w). Qed.

Lemma spawns_ensured (w : World) : spawns (ensured w) = spawns w.
Proof. unfold ensured. now destruct (repos w). Qed.

(** Where a valid name exists, the root is a directory already. *)
Lemma exists_valid_name_root (w : World) (name : string) :
  valid_name name ->
  os_path_exists w (os_path_join (REPOS_DIR w) name) = true ->
  exists es, repos w = Some (Dir es).
Proof.
  intros Hv. pose proof Hv as (_ & H1 & _ & _).
  rewrite join_REPOS_DIR by now apply contains_slash_startswith.
  unfold os_path_exists. rewrite stat_below_root.
  destruct (repos w) as [r|]; [|discriminate].
  rewrite (walk_valid_name r _ Hv).
  destruct r as [|es]; [discriminate|]. now exists es.
Qed.

(** Ensuring the root never brings a valid name into existence. *)
Lemma exists_valid_name_ensured (w : World) (name : string) :
  valid_name name ->
  os_path_exists (ensured w) (os_path_join (REPOS_DIR (ensured w)) name)
  = os_path_exists w (os_path_join (REPOS_DIR w) name).
Proof.
  intros Hv. pose proof Hv as (_ & H1 & _ & _).
  rewrite REPOS_DIR_ensured.
  rewrite join_REPOS_DIR by now apply contains_slash_startswith.
  unfold os_path_exists.
  rewrite <- (REPOS_DIR_ensured w) at 1. rewrite !stat_below_root.
  unfold ensured. destruct (repos w) as [r|] eqn:E.
  - now rewrite E.
  - cbn [repos log with_repos]. now rewrite (walk_valid_name _ _ Hv).
Qed.

(** ** The name checks of [init_repo] and [clone_repo] *)

Lemma init_check_valid (s : string) :
  valid_name s ->
  negb (truthy s) || contains "/" s || contains "\" s || startswith "." s = false.
Proof.
  intros (H0 & H1 & H2 & H3). apply truthy_true_iff in H0.
  now rewrite H0, H1, H2, H3.
Qed.

Lemma init_check_rejected (s : string) :
  rejected_name s ->
  negb (truthy s) || contains "/" s || contains "\" s || startswith "." s = true.
Proof.
  intros [H|[H|H]]; rewrite H; rewrite ?orb_true_r; reflexivity.
Qed.

Lemma clone_check_valid (s : string) :
  valid_name s ->
  contains "/" s || contains "\" s || startswith "." s = false.
Proof. intros (_ & H1 & H2 & H3). now rewrite H1, H2, H3. Qed.

(** On a name that is not empty the two checks are the same test. *)
Lemma checks_agree_nonempty (s : string) :
  s <> "" ->
  negb (truthy s) || contains "/" s || contains "\" s || startswith "." s
  = contains "/" s || contains "\" s || startswith "." s.
Proof. intro H. apply truthy_true_iff in H. now rewrite H. Qed.

(** ** [init_repo] *)

(** [init_repo] on a valid name, once the root is there: the existence
    test, then [git init]. *)
Lemma init_repo_valid (name : string) (w : World) :
  valid_name name ->
  root_ready w = true ->
  init_repo name w =
  let w1 := ensured w in
  let full := os_path_join (REPOS_DIR w) name in
  if os_path_exists w full
  then (Raise (FileExistsError (already_exists name)), w1)
  else
    match subprocess_run ["git"; "init"; full] true false 10 w1 with
    | (Ok _, w2) => (Ok (name, full), w2)
    | (Raise e, w2) => (Raise e, w2)
    end.
Proof.
  intros Hv Hr. unfold init_repo. rewrite (init_check_valid _ Hv).
  unfold bind at 1. rewrite (ensure_ready _ Hr).
  unfold bind at 1, gets at 1. unfold bind at 1, gets at 1.
  rewrite (exists_valid_name_ensured w _ Hv), REPOS_DIR_ensured.
  cbv zeta. destruct (os_path_exists w _); [reflexivity|].
  unfold bind, ret.
  now destruct (subprocess_run _ true false 10 (ensured w)) as [[c|e] w2].
Qed.

(** C8.  For every valid repository name whose target path already
    exists (as a file or a directory), [init_repo] raises
    [FileExistsError], which the router answers with 409 and the
    message of the conflict; the world is left as it was, so no
    process was started, and the answer is not the 400 of an execution
    error. *)
Theorem init_existing_is_conflict (name : string) (w : World) :
  valid_name name ->
  os_path_exists w (os_path_join (REPOS_DIR w) name) = true ->
  init_repo name w = (Raise (FileExistsError (already_exists name)), w)
  /\ do_POST "/init" (init_body name) w = (_error (already_exists name) 409, w)
  /\ spawns (snd (do_POST "/init" (init_body name) w)) = spawns w.
Proof.
  intros Hv Hex.
  destruct (exists_valid_name_root w _ Hv Hex) as [es Hes].
  assert (Hr : root_ready w = true) by (unfold root_ready; now rewrite Hes).
  assert (He : ensured w = w) by (unfold ensured; now rewrite Hes).
  assert (Hi : init_repo name w = (Raise (FileExistsError (already_exists name)), w)).
  { rewrite (init_repo_valid _ _ Hv Hr). cbv zeta. now rewrite Hex, He. }
  assert (Hp : do_POST "/init" (init_body name) w
               = (_error (already_exists name) 409, w)).
  { unfold do_POST, init_body, answer. cbn [String.eqb Ascii.eqb Bool.eqb body_name].
    destruct Hv as (H0 & _). apply truthy_true_iff in H0. rewrite H0.
    cbn [negb]. now rewrite Hi. }
  repeat split; [exact Hi|exact Hp|now rewrite Hp].
Qed.

Lemma init_existing_is_conflict_witness :
  valid_name "demo"
  /\ do_POST "/init" (init_body "demo") (world_of demo_root git_succeeds)
     = (_error (already_exists "demo") 409, world_of demo_root git_succeeds).
Proof.
  assert (Hv : valid_name "demo") by (repeat split; discriminate).
  split; [exact Hv|].
  apply (init_existing_is_conflict "demo" (world_of demo_root git_succeeds) Hv).
  reflexivity.
Defined.

Lemma post_init_truthy (name : string) (w : World) :
  truthy name = true ->
  do_POST "/init" (init_body name) w = answer (init_repo name) respond_init w.
Proof.
  intro H. unfold do_POST, init_body.
  cbn [String.eqb Ascii.eqb Bool.eqb body_name]. now rewrite H.
Qed.

(** ** [clone_repo] *)

Lemma post_clone_truthy (url : string) (name : option string) (w : World) :
  truthy url = true ->
  do_POST "/clone" (clone_body url name) w
  = answer (clone_repo url name) respond_clone w.
Proof.
  intro H. unfold do_POST, clone_body.
  cbn [String.eqb Ascii.eqb Bool.eqb body_name body_url]. now rewrite H.
Qed.

(** [clone_repo] stops at the root when the root cannot be ensured. *)
Lemma clone_repo_not_ready (url : string) (name : option string) (w : World) :
  truthy url = true ->
  root_ready w = false ->
  exists code, clone_repo url name w = (Raise (OSError code (REPOS_DIR w)), w).
Proof.
  intros Hu Hr. destruct (ensure_not_ready w Hr) as [code Hc].
  exists code. unfold clone_repo. rewrite Hu. cbn [negb].
  unfold bind at 1. now rewrite Hc.
Qed.

(** [clone_repo] once the root is there: the name check, the existence
    test, then [git clone]. *)
Lemma clone_repo_ready (url : string) (name : option string) (w : World) :
  truthy url = true ->
  root_ready w = true ->
  clone_repo url name w =
  let w1 := ensured w in
  let n := clone_name url name in
  let full := os_path_join (REPOS_DIR w) n in
  if contains "/" n || contains "\" n || startswith "." n
  then (Raise (ValueError "Invalid repo name"), w1)
  else if os_path_exists w1 full
  then (Raise (FileExistsError (already_exists n)), w1)
  else
    match subprocess_run ["git"; "clone"; url; full] true true 300 w1 with
    | (Ok _, w2) => (Ok (n, full), w2)
    | (Raise e, w2) => (Raise e, w2)
    end.
Proof.
  intros Hu Hr. unfold clone_repo. rewrite Hu. cbn [negb].
  unfold bind at 1. rewrite (ensure_ready _ Hr). cbv zeta.
  fold (clone_name url name).
  destruct (contains "/" _ || contains "\" _ || startswith "." _); [reflexivity|].
  unfold bind at 1, gets at 1. unfold bind at 1, gets at 1.
  rewrite REPOS_DIR_ensured.
  destruct (os_path_exists (ensured w) _); [reflexivity|].
  unfold bind, ret.
  now destruct (subprocess_run _ true true 300 (ensured w)) as [[c|e] w2].
Qed.

(** C1, as the code has it.  For every string that contains a slash or
    a backslash or starts with a dot: [init_repo] rejects it with
    [ValueError] (400) and leaves the world untouched; [clone_repo], on
    a supplied or derived name, first ensures the root, and once the
    root is there rejects the name with [ValueError] (400); in every
    world it starts no process. *)
Theorem bad_name_rejected (s : string) :
  rejected_name s ->
  (forall w,
      init_repo s w = (Raise (ValueError "Invalid repo name"), w)
      /\ do_POST "/init" (init_body s) w = (_error "Invalid repo name" 400, w))
  /\ (forall url name w,
         url <> "" -> clone_name url name = s ->
         spawns (snd (clone_repo url name w)) = spawns w
         /\ (root_ready w = true ->
             clone_repo url name w
             = (Raise (ValueError "Invalid repo name"), ensured w)
             /\ do_POST "/clone" (clone_body url name) w
                = (_error "Invalid repo name" 400, ensured w))).
Proof.
  intro Hs. split.
  - intro w.
    assert (Hi : init_repo s w = (Raise (ValueError "Invalid repo name"), w)).
    { unfold init_repo. now rewrite (init_check_rejected _ Hs). }
    split; [exact Hi|].
    rewrite post_init_truthy by now apply rejected_name_truthy.
    unfold answer. now rewrite Hi.
  - intros url name w Hu Hn. apply truthy_true_iff in Hu.
    assert (Hc : root_ready w = true ->
                 clone_repo url name w
                 = (Raise (ValueError "Invalid repo name"), ensured w)).
    { intro Hr. rewrite (clone_repo_ready _ _ _ Hu Hr). cbv zeta.
      now rewrite Hn, (rejected_name_check _ Hs). }
    split.
    + destruct (root_ready w) eqn:Hr.
      * rewrite (Hc eq_refl). apply spawns_ensured.
      * destruct (clone_repo_not_ready url name w Hu Hr) as [code Hx].
        now rewrite Hx.
    + intro Hr. split; [now apply Hc|].
      rewrite post_clone_truthy by exact Hu.
      unfold answer. now rewrite (Hc Hr).
Qed.

Lemma bad_name_rejected_witness :
  rejected_name "a/b"
  /\ clone_repo "https://example.com/x.git" (Some "a/b") (world_of None git_succeeds)
     = (Raise (ValueError "Invalid repo name"),
        ensured (world_of None git_succeeds)).
Proof.
  assert (H : rejected_name "a/b") by (left; reflexivity).
  split; [exact H|].
  destruct (bad_name_rejected "a/b" H) as [_ Hc].
  apply (Hc "https://example.com/x.git" (Some "a/b") (world_of None git_succeeds));
    [discriminate|reflexivity|reflexivity].
Defined.

(** C1, as the claim has it, fails for [clone_repo]: with the root
    missing, the root is created before the name is rejected. *)
Lemma clone_rejects_after_root_creation :
  ~ (forall s url w,
        rejected_name s -> url <> "" ->
        clone_repo url (Some s) w = (Raise (ValueError "Invalid repo name"), w)).
Proof.
  intro H.
  specialize (H "a/b" "https://example.com/x.git" (world_of None git_succeeds)).
  assert (E : repos (snd (clone_repo "https://example.com/x.git" (Some "a/b")
                                     (world_of None git_succeeds)))
              = repos (world_of None git_succeeds)).
  { rewrite H; [reflexivity|left; reflexivity|discriminate]. }
  vm_compute in E. discriminate.
Qed.

(** With a file where the root should be, [clone_repo] does not reach
    the name check: the answer is 409. *)
Lemma clone_bad_name_root_is_file :
  status (fst (do_POST "/clone" (clone_body "https://example.com/x.git" (Some "a/b"))
                       (world_of (Some File) git_succeeds))) = 409.
Proof. reflexivity. Qed.

(** ** Failures of the [git] process *)

Lemma git_ensured (w : World) : git (ensured w) = git w.
Proof. unfold ensured. now destruct (repos w). Qed.

Lemma lib_str_ensured (w : World) : lib_str (ensured w) = lib_str w.
Proof. unfold ensured. now destruct (repos w). Qed.

Lemma utf8_ensured (w : World) : utf8 (ensured w) = utf8 w.
Proof. unfold ensured. now destruct (repos w). Qed.

(** [subprocess.run] with [check=True], by the way the call ends. *)
Lemma subprocess_run_check (argv : list string) (text : bool) (t : nat)
      (w : World) :
  subprocess_run argv true text t w =
  (match git w argv t with
   | Exited rc out err =>
       if text && negb (utf8 w argv t) then Raise UnicodeDecodeError
       else if rc =? 0 then Ok (mkCompleted rc out err)
       else Raise (CalledProcessError rc argv out err)
   | TimedOut => Raise (TimeoutExpired argv t)
   | SpawnFailed code => Raise (OSError code "git")
   | Refused => Raise (ValueError "embedded null byte")
   end, log (Spawned argv t) w).
Proof.
  unfold subprocess_run.
  destruct (git w argv t) as [rc out err| |code|]; try reflexivity.
  destruct (text && negb (utf8 w argv t)); [reflexivity|].
  cbn [andb]. now destruct (rc =? 0).
Qed.

(** [init_repo] on a valid name that does not exist yet, by the way
    [git init] ends. *)
Lemma init_repo_fresh (name : string) (w : World) :
  valid_name name ->
  root_ready w = true ->
  os_path_exists w (os_path_join (REPOS_DIR w) name) = false ->
  let full := os_path_join (REPOS_DIR w) name in
  let argv := ["git"; "init"; full] in
  init_repo name w =
  (match git w argv 10 with
   | Exited rc out err =>
       if rc =? 0 then Ok (name, full)
       else Raise (CalledProcessError rc argv out err)
   | TimedOut => Raise (TimeoutExpired argv 10)
   | SpawnFailed code => Raise (OSError code "git")
   | Refused => Raise (ValueError "embedded null byte")
   end, log (Spawned argv 10) (ensured w)).
Proof.
  intros Hv Hr Hex. cbv zeta.
  rewrite (init_repo_valid _ _ Hv Hr). cbv zeta. rewrite Hex.
  rewrite subprocess_run_check, git_ensured. cbn [andb].
  destruct (git w _ 10) as [rc out err| |code|]; try reflexivity.
  now destruct (rc =? 0).
Qed.

(** C2, as the code has it.  For every valid repository name that does
    not exist yet, once the root is there: when [git init] is killed at
    its time bound, [init_repo] raises [TimeoutExpired], and the router
    answers 500 with the library's text for that exception. *)
Theorem init_timeout_is_internal_error (name : string) (w : World) :
  valid_name name ->
  root_ready w = true ->
  os_path_exists w (os_path_join (REPOS_DIR w) name) = false ->
  git w ["git"; "init"; os_path_join (REPOS_DIR w) name] 10 = TimedOut ->
  fst (init_repo name w)
  = Raise (TimeoutExpired ["git"; "init"; os_path_join (REPOS_DIR w) name] 10)
  /\ fst (do_POST "/init" (init_body name) w)
     = _error (lib_str w (TimeoutExpired
                            ["git"; "init"; os_path_join (REPOS_DIR w) name] 10))
              500.
Proof.
  intros Hv Hr Hex Hg.
  pose proof (init_repo_fresh _ _ Hv Hr Hex) as Hi. cbv zeta in Hi.
  rewrite Hg in Hi. split; [now rewrite Hi|].
  rewrite post_init_truthy by (apply truthy_true_iff; apply Hv).
  unfold answer. rewrite Hi. cbn [fst respond_init is_FileExistsError is_ValueError py_str].
  cbn [lib_str log]. now rewrite lib_str_ensured.
Qed.

Lemma init_timeout_is_internal_error_witness :
  valid_name "demo"
  /\ status (fst (do_POST "/init" (init_body "demo")
                          (world_of (Some (Dir [])) git_times_out))) = 500.
Proof.
  assert (Hv : valid_name "demo") by (repeat split; discriminate).
  split; [exact Hv|].
  destruct (init_timeout_is_internal_error
              "demo" (world_of (Some (Dir [])) git_times_out) Hv
              eq_refl eq_refl eq_refl) as [_ H].
  now rewrite H.
Defined.

(** C2, as the claim has it, fails: a [git init] that times out is
    answered with 500, not 400. *)
Lemma init_timeout_is_not_400 :
  ~ (forall name w,
        valid_name name ->
        os_path_exists w (os_path_join (REPOS_DIR w) name) = false ->
        (git w ["git"; "init"; os_path_join (REPOS_DIR w) name] 10 = TimedOut
         \/ exists rc out err,
             git w ["git"; "init"; os_path_join (REPOS_DIR w) name] 10
             = Exited rc out err /\ rc <> 0) ->
        status (fst (do_POST "/init" (init_body name) w)) = 400).
Proof.
  intro H.
  specialize (H "demo" (world_of (Some (Dir [])) git_times_out)).
  assert (E : status (fst (do_POST "/init" (init_body "demo")
                                   (world_of (Some (Dir [])) git_times_out))) = 400).
  { apply H; [repeat split; discriminate|reflexivity|left; reflexivity]. }
  vm_compute in E. discriminate.
Qed.

(** A [git init] that exits with a code other than zero is answered with
    500 and the library's text for [CalledProcessError]: the [/init]
    branch has no clause of its own for that exception. *)
Lemma init_nonzero_exit_answer (name : string) (w : World) (rc : Z)
      (out err : string) :
  valid_name name ->
  root_ready w = true ->
  os_path_exists w (os_path_join (REPOS_DIR w) name) = false ->
  git w ["git"; "init"; os_path_join (REPOS_DIR w) name] 10 = Exited rc out err ->
  rc <> 0 ->
  fst (do_POST "/init" (init_body name) w)
  = _error (lib_str w (CalledProcessError
                         rc ["git"; "init"; os_path_join (REPOS_DIR w) name]
                         out err))
           500.
Proof.
  intros Hv Hr Hex Hg Hrc.
  pose proof (init_repo_fresh _ _ Hv Hr Hex) as Hi. cbv zeta in Hi.
  rewrite Hg in Hi. apply Z.eqb_neq in Hrc. rewrite Hrc in Hi.
  rewrite post_init_truthy by (apply truthy_true_iff; apply Hv).
  unfold answer. rewrite Hi. cbn [fst respond_init is_FileExistsError is_ValueError py_str].
  cbn [lib_str log]. now rewrite lib_str_ensured.
Qed.

(** [clone_repo] on a valid name that does not exist yet, by the way
    [git clone] ends. *)
Lemma clone_repo_fresh (url : string) (name : option string) (w : World) :
  truthy url = true ->
  valid_name (clone_name url name) ->
  root_ready w = true ->
  os_path_exists w (os_path_join (REPOS_DIR w) (clone_name url name)) = false ->
  let n := clone_name url name in
  let full := os_path_join (REPOS_DIR w) n in
  let argv := ["git"; "clone"; url; full] in
  clone_repo url name w =
  (match git w argv 300 with
   | Exited rc out err =>
       if negb (utf8 w argv 300) then Raise UnicodeDecodeError
       else if rc =? 0 then Ok (n, full)
       else Raise (CalledProcessError rc argv out err)
   | TimedOut => Raise (TimeoutExpired argv 300)
   | SpawnFailed code => Raise (OSError code "git")
   | Refused => Raise (ValueError "embedded null byte")
   end, log (Spawned argv 300) (ensured w)).
Proof.
  intros Hu Hv Hr Hex. cbv zeta.
  rewrite (clone_repo_ready _ _ _ Hu Hr). cbv zeta.
  rewrite (clone_check_valid _ Hv).
  pose proof (exists_valid_name_ensured w _ Hv) as He.
  rewrite REPOS_DIR_ensured in He. rewrite He, Hex.
  rewrite subprocess_run_check, git_ensured, utf8_ensured. cbn [andb].
  destruct (git w _ 300) as [rc out err| |code|]; try reflexivity.
  destruct (negb (utf8 w _ 300)); [reflexivity|].
  now destruct (rc =? 0).
Qed.

(** C3, as the code has it.  For every clone request with a valid name
    whose target path does not exist, once the root is there, each way
    for the call of [git clone] to fail has its answer.  A process that
    exits with a code other than zero, its streams decoding as text, is
    answered 400 with the trimmed text of its standard error, or of its
    standard output when the standard error is empty, or of the
    library's message when both are.  A process that exits with streams
    that do not decode raises [UnicodeDecodeError], and a call that is
    refused for an argument with a NUL raises [ValueError]: both are
    answered 400 by the clause for [ValueError], with the text of the
    exception.  A process killed at the time bound is answered 500 with
    the library's text.  A process that cannot be started is answered
    with the library's text and 500, or 409 when the error of the
    system is [FileExistsError], which the clause for conflicts
    catches. *)
Theorem clone_failure_answers (url : string) (name : option string) (w : World) :
  url <> "" ->
  valid_name (clone_name url name) ->
  root_ready w = true ->
  os_path_exists w (os_path_join (REPOS_DIR w) (clone_name url name)) = false ->
  let argv := ["git"; "clone"; url;
               os_path_join (REPOS_DIR w) (clone_name url name)] in
  let answered := fst (do_POST "/clone" (clone_body url name) w) in
  (forall rc out err,
      git w argv 300 = Exited rc out err -> utf8 w argv 300 = true -> rc <> 0 ->
      answered
      = _error (strip (or_else err
                         (or_else out
                            (lib_str w (CalledProcessError rc argv out err)))))
               400)
  /\ (forall rc out err,
         git w argv 300 = Exited rc out err -> utf8 w argv 300 = false ->
         answered = _error (lib_str w UnicodeDecodeError) 400)
  /\ (git w argv 300 = Refused -> answered = _error "embedded null byte" 400)
  /\ (git w argv 300 = TimedOut ->
      answered = _error (lib_str w (TimeoutExpired argv 300)) 500)
  /\ (forall code,
         git w argv 300 = SpawnFailed code ->
         answered
         = _error (lib_str w (OSError code "git"))
                  (match code with EEXIST => 409 | _ => 500 end)).
Proof.
  intros Hu Hv Hr Hex argv answered. apply truthy_true_iff in Hu.
  pose proof (clone_repo_fresh _ _ _ Hu Hv Hr Hex) as Hc. cbv zeta in Hc.
  fold argv in Hc.
  assert (Ha : answered = respond_clone (fst (clone_repo url name w))
                                        (snd (clone_repo url name w))).
  { unfold answered. rewrite post_clone_truthy by exact Hu.
    unfold answer. now destruct (clone_repo url name w). }
  assert (Hl : lib_str (log (Spawned argv 300) (ensured w)) = lib_str w)
    by (cbn [lib_str log]; apply lib_str_ensured).
  rewrite Ha, Hc. cbn [fst snd].
  split; [|split; [|split; [|split]]].
  - intros rc out err Hg Hd Hrc. rewrite Hg, Hd. cbn [negb].
    apply Z.eqb_neq in Hrc. rewrite Hrc.
    cbn [respond_clone is_FileExistsError is_ValueError py_str]. now rewrite Hl.
  - intros rc out err Hg Hd. rewrite Hg, Hd. cbn [negb].
    cbn [respond_clone is_FileExistsError is_ValueError py_str]. now rewrite Hl.
  - intro Hg. rewrite Hg. reflexivity.
  - intro Hg. rewrite Hg.
    cbn [respond_clone is_FileExistsError is_ValueError py_str]. now rewrite Hl.
  - intros code Hg. rewrite Hg.
    destruct code;
      cbn [respond_clone is_FileExistsError is_ValueError py_str]; now rewrite Hl.
Qed.

Lemma clone_failure_answers_witness :
  valid_name (clone_name "https://example.com/foo.git" None)
  /\ fst (do_POST "/clone" (clone_body "https://example.com/foo.git" None)
                  (world_of (Some (Dir [])) git_fails))
     = _error "fatal: not a git repository" 400.
Proof.
  assert (Hv : valid_name (clone_name "https://example.com/foo.git" None))
    by (repeat split; discriminate).
  split; [exact Hv|].
  destruct (clone_failure_answers
              "https://example.com/foo.git" None
              (world_of (Some (Dir [])) git_fails)
              ltac:(discriminate) Hv eq_refl eq_refl) as [H _].
  rewrite (H 128 "" "fatal: not a git repository" eq_refl eq_refl
             ltac:(discriminate)).
  reflexivity.
Defined.

(** C3, as the claim has it, fails: a [git clone] that times out is
    answered with 500, not 400. *)
Lemma clone_timeout_is_not_400 :
  ~ (forall url name w,
        url <> "" ->
        valid_name (clone_name url name) ->
        os_path_exists w (os_path_join (REPOS_DIR w) (clone_name url name)) = false ->
        git w ["git"; "clone"; url;
               os_path_join (REPOS_DIR w) (clone_name url name)] 300 = TimedOut ->
        status (fst (do_POST "/clone" (clone_body url name) w)) = 400).
Proof.
  intro H.
  specialize (H "https://example.com/foo.git" None
                (world_of (Some (Dir [])) git_times_out)).
  assert (E : status (fst (do_POST "/clone"
                                   (clone_body "https://example.com/foo.git" None)
                                   (world_of (Some (Dir [])) git_times_out))) = 400).
  { apply H; [discriminate|repeat split; discriminate|reflexivity|reflexivity]. }
  vm_compute in E. discriminate.
Qed.

(** The name derived from a URL, on the example of the specification. *)
Example derive_name_foo : derive_name "https://example.com/foo.git" = "foo".
Proof. reflexivity. Qed.

Example derive_name_fallback : derive_name "https://example.com/.git/" = "repo".
Proof. reflexivity. Qed.

(** ** [run_git] *)

Lemma post_run_truthy (repo : string) (args : list string) (w : World) :
  truthy repo = true ->
  do_POST "/run" (run_body repo args) w = answer (run_git repo args) respond_run w.
Proof.
  intro H. unfold do_POST, run_body.
  cbn [String.eqb Ascii.eqb Bool.eqb body_repo body_args]. now rewrite H.
Qed.

(** [run_git] with arguments: the repository test, then the process. *)
Lemma run_git_args (repo : string) (args : list string) (w : World) :
  args <> [] ->
  let full := os_path_join (REPOS_DIR w) repo in
  let argv := (["git"; "-C"; full] ++ args)%list in
  run_git repo args w =
  if is_git_dir w full then
    (match git w argv 60 with
     | Exited rc out err =>
         if negb (utf8 w argv 60) then Raise UnicodeDecodeError
         else if negb (rc =? 0) && truthy (strip err)
         then Raise (RuntimeError (strip err))
         else Ok (if truthy (strip out) then strip out else strip err)
     | TimedOut => Raise (TimeoutExpired argv 60)
     | SpawnFailed code => Raise (OSError code "git")
     | Refused => Raise (ValueError "embedded null byte")
     end, log (Spawned argv 60) w)
  else (Raise (FileNotFoundError ("Not a git repository: " ++ repo)), w).
Proof.
  intro Ha. cbv zeta. destruct args as [|a args]; [easy|].
  unfold run_git. unfold bind at 1, gets at 1. unfold bind at 1, gets at 1.
  destruct (is_git_dir w _); [|reflexivity].
  cbn [negb]. unfold bind, subprocess_run.
  destruct (git w _ 60) as [rc out err| |code|]; try reflexivity.
  cbn [andb]. destruct (negb (utf8 w _ 60)); [reflexivity|].
  cbn [cp_returncode cp_stdout cp_stderr].
  now destruct (negb (rc =? 0) && truthy (strip err)).
Qed.

(** C4, as the code has it.  For every repository name that is not
    empty and whose path under the root has no [.git] directory, and for
    every list of arguments that is not empty, [run_git] raises
    [FileNotFoundError]; the router answers 404 with the message that
    names the repository, and nothing is started. *)
Theorem run_missing_repo_is_not_found (repo : string) (args : list string)
        (w : World) :
  repo <> "" ->
  args <> [] ->
  is_git_dir w (os_path_join (REPOS_DIR w) repo) = false ->
  run_git repo args w
  = (Raise (FileNotFoundError ("Not a git repository: " ++ repo)), w)
  /\ do_POST "/run" (run_body repo args) w
     = (_error ("Not a git repository: " ++ repo) 404, w).
Proof.
  intros Hr Ha Hg. apply truthy_true_iff in Hr.
  pose proof (run_git_args repo args w Ha) as H. cbv zeta in H.
  rewrite Hg in H. split; [exact H|].
  rewrite (post_run_truthy _ _ _ Hr). unfold answer. now rewrite H.
Qed.

Lemma run_missing_repo_is_not_found_witness :
  do_POST "/run" (run_body "missing" ["status"]) (world_of demo_root git_succeeds)
  = (_error "Not a git repository: missing" 404, world_of demo_root git_succeeds).
Proof.
  apply (run_missing_repo_is_not_found
           "missing" ["status"] (world_of demo_root git_succeeds));
    [discriminate|discriminate|reflexivity].
Defined.

(** C4, as the claim has it, fails on the empty list of arguments: the
    answer is the empty output with status 200, whatever the
    repository. *)
Lemma run_missing_repo_empty_args :
  ~ (forall repo args w,
        repo <> "" ->
        is_git_dir w (os_path_join (REPOS_DIR w) repo) = false ->
        fst (do_POST "/run" (run_body repo args) w)
        = _error ("Not a git repository: " ++ repo) 404).
Proof.
  intro H.
  specialize (H "missing" [] (world_of demo_root git_succeeds)
                ltac:(discriminate) eq_refl).
  vm_compute in H. discriminate.
Qed.

(** C5.  For every repository value, [run_git] with no arguments
    returns the empty string at once and leaves the world as it was (no
    process is started); the router turns that result into
    [{"output": ""}] with status 200. *)
Theorem run_empty_args (repo : string) (w : World) :
  run_git repo [] w = (Ok "", w)
  /\ answer (run_git repo []) respond_run w = (_json (JOutput "") 200, w)
  /\ spawns (snd (run_git repo [] w)) = spawns w.
Proof. repeat split. Qed.

(** Through the router, for a repository value that is not empty. *)
Lemma post_run_empty_args (repo : string) (w : World) :
  repo <> "" ->
  do_POST "/run" (run_body repo []) w = (_json (JOutput "") 200, w).
Proof.
  intro H. apply truthy_true_iff in H. now rewrite (post_run_truthy _ _ _ H).
Qed.

(** C6, as the code has it.  For every call of [run_git] on a git
    repository with arguments, when the process ends by itself with
    code [rc] and its captured streams decode as text: if [rc] is not
    zero and the trimmed standard error is not empty, [run_git] raises
    [RuntimeError] with the trimmed standard error; otherwise it returns
    the trimmed standard output, or the trimmed standard error when the
    trimmed standard output is empty. *)
Theorem run_git_success_policy (repo : string) (args : list string) (w : World)
        (rc : Z) (out err : string) :
  args <> [] ->
  is_git_dir w (os_path_join (REPOS_DIR w) repo) = true ->
  git w (["git"; "-C"; os_path_join (REPOS_DIR w) repo] ++ args)%list 60
  = Exited rc out err ->
  utf8 w (["git"; "-C"; os_path_join (REPOS_DIR w) repo] ++ args)%list 60 = true ->
  (rc <> 0 -> strip err <> "" ->
   fst (run_git repo args w) = Raise (RuntimeError (strip err)))
  /\ (rc = 0 \/ strip err = "" ->
      fst (run_git repo args w)
      = Ok (if truthy (strip out) then strip out else strip err)).
Proof.
  intros Ha Hd Hg Hu.
  pose proof (run_git_args repo args w Ha) as H. cbv zeta in H.
  rewrite Hd, Hg, Hu in H. rewrite H. cbn [fst negb]. split.
  - intros Hrc He. apply Z.eqb_neq in Hrc. apply truthy_true_iff in He.
    now rewrite Hrc, He.
  - intros [Hrc|He].
    + subst rc. reflexivity.
    + rewrite He. cbn [truthy]. now rewrite andb_false_r.
Qed.

Lemma run_git_success_policy_witness :
  fst (run_git "demo" ["status"] (world_of demo_root git_fails))
  = Raise (RuntimeError "fatal: not a git repository").
Proof.
  destruct (run_git_success_policy
              "demo" ["status"] (world_of demo_root git_fails)
              128 "" "fatal: not a git repository"
              ltac:(discriminate) eq_refl eq_refl eq_refl) as [H _].
  apply H; discriminate.
Defined.

(** C6, as the claim has it, fails: outside the case of a nonzero exit
    with text on standard error, [run_git] does not always succeed; a
    process killed at the time bound makes it raise. *)
Lemma run_git_timeout_raises :
  ~ (forall repo args w,
        args <> [] ->
        is_git_dir w (os_path_join (REPOS_DIR w) repo) = true ->
        (forall rc out err,
            git w (["git"; "-C"; os_path_join (REPOS_DIR w) repo] ++ args)%list 60
            = Exited rc out err ->
            rc = 0 \/ err = "") ->
        exists s, fst (run_git repo args w) = Ok s).
Proof.
  intro H.
  destruct (H "demo" ["status"] (world_of demo_root git_times_out)
              ltac:(discriminate) eq_refl) as [s Hs].
  - intros rc out err E. discriminate E.
  - vm_compute in Hs. discriminate.
Qed.

(** A process that exits by itself with streams that do not decode
    makes [run_git] raise [UnicodeDecodeError], whatever its code. *)
Lemma run_git_undecodable_raises (repo : string) (args : list string)
      (w : World) (rc : Z) (out err : string) :
  args <> [] ->
  is_git_dir w (os_path_join (REPOS_DIR w) repo) = true ->
  git w (["git"; "-C"; os_path_join (REPOS_DIR w) repo] ++ args)%list 60
  = Exited rc out err ->
  utf8 w (["git"; "-C"; os_path_join (REPOS_DIR w) repo] ++ args)%list 60 = false ->
  fst (run_git repo args w) = Raise UnicodeDecodeError.
Proof.
  intros Ha Hd Hg Hu.
  pose proof (run_git_args repo args w Ha) as H. cbv zeta in H.
  rewrite Hd, Hg, Hu in H. now rewrite H.
Qed.

(** A nonzero exit with a blank standard error is a success. *)
Lemma run_git_blank_stderr :
  fst (run_git "demo" ["status"] (world_of demo_root git_fails_blank)) = Ok "".
Proof. reflexivity. Qed.

(** ** The empty name in [clone_repo] *)

Lemma repos_ensured_ready (w : World) :
  root_ready w = true -> exists es, repos (ensured w) = Some (Dir es).
Proof.
  unfold root_ready, ensured. destruct (repos w) as [[|es]|] eqn:E; try easy.
  - intros _. now exists es.
  - intros _. now exists [].
Qed.

(** Once the root is there, the path of the empty name is the root
    itself, and exists. *)
Lemma empty_name_exists (w : World) :
  root_ready w = true ->
  os_path_exists (ensured w) (os_path_join (REPOS_DIR w) "") = true.
Proof.
  intro Hr. destruct (repos_ensured_ready w Hr) as [es Hes].
  rewrite join_REPOS_DIR by reflexivity.
  unfold os_path_exists.
  rewrite <- (REPOS_DIR_ensured w), stat_below_root, Hes. reflexivity.
Qed.

(** C7, on the code.  A clone request whose supplied name is the empty
    string passes the name check of [clone_repo], which has no test for
    emptiness; the path it builds is the root itself, which exists, so
    the request is answered 409 with the conflict message for the name
    [""].  [init_repo] rejects the same name with [ValueError]. *)
Theorem clone_empty_name_is_conflict (url : string) (w : World) :
  url <> "" ->
  root_ready w = true ->
  fst (clone_repo url (Some "") w) = Raise (FileExistsError (already_exists ""))
  /\ fst (do_POST "/clone" (clone_body url (Some "")) w)
     = _error (already_exists "") 409
  /\ fst (init_repo "" w) = Raise (ValueError "Invalid repo name").
Proof.
  intros Hu Hr. apply truthy_true_iff in Hu.
  assert (Hc : clone_repo url (Some "") w
               = (Raise (FileExistsError (already_exists "")), ensured w)).
  { rewrite (clone_repo_ready _ _ _ Hu Hr). cbv zeta.
    cbn [clone_name contains startswith orb].
    now rewrite (empty_name_exists w Hr). }
  repeat split.
  - now rewrite Hc.
  - rewrite (post_clone_truthy _ _ _ Hu). unfold answer. now rewrite Hc.
Qed.

Lemma clone_empty_name_is_conflict_witness :
  status (fst (do_POST "/clone" (clone_body "https://example.com/foo.git" (Some ""))
                       (world_of (Some (Dir [])) git_succeeds))) = 409.
Proof.
  destruct (clone_empty_name_is_conflict
              "https://example.com/foo.git" (world_of (Some (Dir [])) git_succeeds)
              ltac:(discriminate) eq_refl) as (_ & H & _).
  now rewrite H.
Defined.

(** ** No name check in [run_git] *)

Lemma join_beside_root (w : World) :
  os_path_join (REPOS_DIR w) "../somedir" = REPOS_DIR w ++ "/../somedir".
Proof. now rewrite join_REPOS_DIR. Qed.

(** Whether [REPOS_DIR/../somedir] is a git repository is decided by
    what lies outside the tree of the root. *)
Lemma is_git_dir_beside_root (w : World) :
  is_git_dir w (REPOS_DIR w ++ "/../somedir") =
  match repos w with
  | Some (Dir _) =>
      match elsewhere w (REPOS_DIR w ++ "/../somedir/.git") with
      | Some (Dir _) => true
      | _ => false
      end
  | _ => false
  end.
Proof.
  unfold is_git_dir, os_path_join. cbn [startswith Ascii.eqb Bool.eqb andb].
  rewrite truthy_append_r by reflexivity.
  rewrite endswith_char_append by reflexivity.
  cbn [negb orb endswith_char Ascii.eqb Bool.eqb].
  rewrite append_assoc.
  change ("/../somedir" ++ "/" ++ ".git") with ("/" ++ "../somedir/.git").
  unfold os_path_isdir. rewrite stat_below_root.
  destruct (repos w) as [[|es]|]; reflexivity.
Qed.

(** C10.  For every repository string that is not empty, whatever
    separators or dots it holds: the router hands it to [run_git] as it
    is, and the request is never answered as a validation error: an
    answer 400 comes only from a [RuntimeError] of [run_git] (the error
    text of a failed [git]), and a [ValueError] that [subprocess.run]
    raises (an argument with a NUL, streams that do not decode) is
    answered 500.  With arguments and a [.git] directory at the joined
    path, [subprocess.run] is called for [git -C] on the plain join of
    the root and the string.  For [../somedir] that join is
    [REPOS_DIR/../somedir], a path that is looked up outside the tree
    of the root. *)
Theorem run_takes_any_repo (repo : string) (args : list string) (w : World) :
  repo <> "" ->
  do_POST "/run" (run_body repo args) w = answer (run_git repo args) respond_run w
  /\ (status (fst (do_POST "/run" (run_body repo args) w)) = 400 ->
      exists msg, fst (run_git repo args w) = Raise (RuntimeError msg))
  /\ (forall e,
         fst (run_git repo args w) = Raise e -> is_ValueError e = true ->
         status (fst (do_POST "/run" (run_body repo args) w)) = 500)
  /\ (args <> [] ->
      is_git_dir w (os_path_join (REPOS_DIR w) repo) = true ->
      trace (snd (run_git repo args w))
      = Spawned (["git"; "-C"; os_path_join (REPOS_DIR w) repo] ++ args)%list 60
        :: trace w)
  /\ os_path_join (REPOS_DIR w) "../somedir" = REPOS_DIR w ++ "/../somedir"
  /\ is_git_dir w (REPOS_DIR w ++ "/../somedir")
     = match repos w with
       | Some (Dir _) =>
           match elsewhere w (REPOS_DIR w ++ "/../somedir/.git") with
           | Some (Dir _) => true
           | _ => false
           end
       | _ => false
       end.
Proof.
  intro Hr. apply truthy_true_iff in Hr.
  split; [now apply post_run_truthy|].
  rewrite (post_run_truthy _ _ _ Hr). unfold answer.
  split; [|split;
           [|split; [|split; [apply join_beside_root|apply is_git_dir_beside_root]]]].
  - destruct (run_git repo args w) as [[output|e] w']; cbn [fst respond_run];
      [discriminate|].
    destruct e; cbn [is_FileNotFoundError is_RuntimeError status _error _json];
      try discriminate.
    + intros _. now eexists.
    + destruct code; discriminate.
  - intros e. destruct (run_git repo args w) as [[output|e'] w']; cbn [fst];
      [discriminate|].
    intro He. inversion He; subst e'. now destruct e.
  - intros Ha Hd. pose proof (run_git_args repo args w Ha) as H.
    cbv zeta in H. rewrite Hd in H. now rewrite H.
Qed.

Lemma run_takes_any_repo_witness :
  trace (snd (run_git "../somedir" ["status"] escape_world))
  = [Spawned ["git"; "-C"; "/home/u/Repositories/../somedir"; "status"] 60].
Proof.
  destruct (run_takes_any_repo "../somedir" ["status"] escape_world
                               ltac:(discriminate)) as (_ & _ & _ & H & _).
  apply H; [discriminate|reflexivity].
Defined.

(** ** [get_repos] *)

Lemma same_outside_refl (w : World) : same_outside w w.
Proof. now repeat split. Qed.

Lemma same_outside_trans (w1 w2 w3 : World) :
  same_outside w1 w2 -> same_outside w2 w3 -> same_outside w1 w3.
Proof.
  intros (A1 & A2 & A3 & A4 & A5 & A6 & A7) (B1 & B2 & B3 & B4 & B5 & B6 & B7).
  repeat split; congruence.
Qed.

Lemma same_outside_log (e : event) (w : World) : same_outside w (log e w).
Proof. now repeat split. Qed.

Lemma same_outside_REPOS_DIR (w w' : World) :
  same_outside w w' -> REPOS_DIR w' = REPOS_DIR w.
Proof. intros (A1 & _). unfold REPOS_DIR. now rewrite A1. Qed.

Lemma same_outside_stat (w w' : World) (p : string) :
  same_outside w w' -> stat w' p = stat w p.
Proof.
  intros H. pose proof (same_outside_REPOS_DIR _ _ H) as Hd.
  destruct H as (_ & A2 & A3 & _).
  unfold stat. now rewrite Hd, A2, A3.
Qed.

Lemma same_outside_listed (w w' : World) (name : string) :
  same_outside w w' -> listed w' name = listed w name.
Proof.
  intro H. unfold listed, is_git_dir, os_path_isdir.
  now rewrite (same_outside_REPOS_DIR _ _ H), !(same_outside_stat _ _ _ H).
Qed.

Lemma same_outside_record_of (w w' : World) (name : string) :
  same_outside w w' -> record_of w' name = record_of w name.
Proof.
  intro H. unfold record_of. rewrite (same_outside_REPOS_DIR _ _ H).
  destruct H as (_ & _ & _ & _ & A5 & _ & A7). now rewrite A5, A7.
Qed.

(** The probes always give a pair of fields, whatever [git] does, and
    change nothing but the trace. *)
Lemma probe_spec (full : string) (w : World) :
  exists w',
    probe full w
    = (Ok (probe_fields (git w (branch_argv full) 5) (utf8 w (branch_argv full) 5)
                        (git w (status_argv full) 5) (utf8 w (status_argv full) 5)),
       w')
    /\ same_outside w w'.
Proof.
  unfold probe, try_except, bind, subprocess_run, ret, branch_argv, status_argv.
  cbn [andb].
  destruct (git w _ 5) as [rc1 out1 err1| |code1|] eqn:E1; cbn [probe_fields];
    try (eexists; split; [reflexivity|apply same_outside_log]).
  destruct (utf8 w _ 5) eqn:U1; cbn [negb];
    [|eexists; split; [reflexivity|apply same_outside_log]].
  cbn [git utf8 log cp_returncode cp_stdout].
  destruct (git w ["git"; "-C"; full; "status"; "--porcelain"] 5)
    as [rc2 out2 err2| |code2|] eqn:E2;
    try (eexists; split; [reflexivity|];
         eapply same_outside_trans; apply same_outside_log).
  destruct (utf8 w ["git"; "-C"; full; "status"; "--porcelain"] 5); cbn [negb];
    (eexists; split; [reflexivity|]);
    eapply same_outside_trans; apply same_outside_log.
Qed.

(** The loop keeps exactly the listed names, in order, each with the
    record its own probes give. *)
Lemma scan_spec (names : list string) :
  forall w, exists w',
    scan names w = (Ok (map (record_of w) (filter (listed w) names)), w')
    /\ same_outside w w'.
Proof.
  induction names as [|name rest IH]; intro w.
  - exists w. split; [reflexivity|apply same_outside_refl].
  - cbn [scan filter]. unfold listed at 1.
    destruct (startswith "." name) eqn:Hdot; cbn [negb andb]; [apply IH|].
    unfold bind at 1, gets at 1. unfold bind at 1, gets at 1.
    destruct (os_path_isdir w _ && is_git_dir w _) eqn:Hrepo; cbn [negb].
    + destruct (probe_spec (os_path_join (REPOS_DIR w) name) w) as (w1 & Hp & H1).
      destruct (IH w1) as (w2 & Hs & H2).
      exists w2. split; [|eapply same_outside_trans; eassumption].
      unfold bind at 1. rewrite Hp. unfold bind at 1. rewrite Hs.
      unfold ret. cbn [map].
      rewrite (filter_ext _ _ (fun n => same_outside_listed w w1 n H1)).
      rewrite (map_ext _ _ (fun n => same_outside_record_of w w1 n H1)).
      reflexivity.
    + apply IH.
Qed.

Lemma strip_prefix_self (p : string) : strip_prefix p p = Some "".
Proof. induction p as [|a p IH]; simpl; [reflexivity|now rewrite Ascii.eqb_refl]. Qed.

Lemma stat_root (w : World) : stat w (REPOS_DIR w) = repos w.
Proof. unfold stat. now rewrite strip_prefix_self. Qed.

Lemma listed_ensured (w : World) :
  filter (listed (ensured w)) (sorted (root_names (ensured w)))
  = filter (listed w) (sorted (root_names w)).
Proof.
  unfold ensured. destruct (repos w) as [r|] eqn:E; [reflexivity|].
  unfold root_names. cbn [repos log with_repos]. now rewrite E.
Qed.

(** [get_repos] once the root is there: the listed entries of the root,
    sorted, each with the record of its own probes. *)
Lemma get_repos_ready (w : World) :
  root_ready w = true ->
  exists w',
    get_repos w
    = (Ok (map (record_of w) (filter (listed w) (sorted (root_names w)))), w')
    /\ lib_str w' = lib_str w.
Proof.
  intro Hr. destruct (repos_ensured_ready w Hr) as [es Hes].
  destruct (scan_spec (sorted (root_names (ensured w))) (ensured w))
    as (w' & Hs & Ho).
  exists w'. split.
  - unfold get_repos. unfold bind at 1. rewrite (ensure_ready w Hr).
    unfold bind at 1, gets at 1. unfold bind at 1, os_listdir.
    rewrite stat_root, Hes.
    replace (map fst es) with (root_names (ensured w))
      by (unfold root_names; now rewrite Hes).
    rewrite Hs, (listed_ensured w).
    f_equal. f_equal. apply map_ext. intro n. unfold record_of.
    now rewrite REPOS_DIR_ensured, git_ensured, utf8_ensured.
  - destruct Ho as (_ & _ & _ & _ & _ & Hl & _). now rewrite Hl, lib_str_ensured.
Qed.

(** The fields of a record, by the way the two probes end: [o1], [o2]
    are their outcomes, [d1], [d2] say whether their streams decode. *)
Lemma probe_fields_cases (o1 : outcome) (d1 : bool) (o2 : outcome) (d2 : bool) :
  (exited o1 && d1 = false -> probe_fields o1 d1 o2 d2 = (None, None))
  /\ (forall rc out err,
         exited o1 && d1 = true -> o1 = Exited rc out err -> rc <> 0 ->
         fst (probe_fields o1 d1 o2 d2) = None)
  /\ (forall out err,
         exited o1 && d1 = true -> o1 = Exited 0 out err ->
         fst (probe_fields o1 d1 o2 d2) = or_none (strip out))
  /\ (exited o1 && d1 = true -> exited o2 && d2 = false ->
      snd (probe_fields o1 d1 o2 d2) = None)
  /\ (forall rc out err,
         exited o1 && d1 = true -> exited o2 && d2 = true ->
         o2 = Exited rc out err -> rc <> 0 ->
         snd (probe_fields o1 d1 o2 d2) = Some false).
Proof.
  split; [|split; [|split; [|split]]].
  - destruct o1, d1; try reflexivity. discriminate.
  - intros rc out err H1 -> Hrc. apply Z.eqb_neq in Hrc.
    destruct d1; [|discriminate H1]. cbn [probe_fields]. rewrite Hrc.
    now destruct o2, d2.
  - intros out err H1 ->. destruct d1; [|discriminate H1].
    cbn [probe_fields]. now destruct o2, d2.
  - intros H1 H2. destruct o1; try discriminate H1.
    destruct d1; [|discriminate H1]. cbn [probe_fields].
    destruct o2, d2; try reflexivity. discriminate H2.
  - intros rc out err H1 H2 -> Hrc. apply Z.eqb_neq in Hrc.
    destruct o1; try discriminate H1. destruct d1; [|discriminate H1].
    destruct d2; [|discriminate H2]. cbn [probe_fields snd]. now rewrite Hrc.
Qed.

(** C9, as the code has it.  For every state of the root that is, or
    can be made, a directory: [get_repos] returns a listing, answered
    with status 200, that holds one record for each listed entry of the
    root, in sorted order, whatever the probes do; so a failing probe
    neither removes its own repository nor any other.  In the record of
    a repository: when the branch probe hands over no result (it times
    out, cannot start, is refused, or its streams do not decode), both
    fields are null; when it exits with a code other than zero,
    [currentBranch] is null; when it exits with code 0,
    [currentBranch] is its trimmed standard output (null when that is
    empty), whatever the status probe does after it; when the status
    probe hands over no result after a branch probe that did, [isClean]
    is null; when the status probe exits with a code other than zero,
    [isClean] is false. *)
Theorem listing_survives_probe_failures (w : World) :
  root_ready w = true ->
  exists recs w',
    get_repos w = (Ok recs, w')
    /\ fst (do_GET "/repos" w) = _json (JRepos recs) 200
    /\ map rec_name recs = filter (listed w) (sorted (root_names w))
    /\ forall r, In r recs ->
         let o1 := git w (branch_argv (rec_path r)) 5 in
         let o2 := git w (status_argv (rec_path r)) 5 in
         let r1 := returned w (branch_argv (rec_path r)) 5 in
         let r2 := returned w (status_argv (rec_path r)) 5 in
         rec_path r = os_path_join (REPOS_DIR w) (rec_name r)
         /\ (r1 = false -> currentBranch r = None /\ isClean r = None)
         /\ (forall rc out err,
                r1 = true -> o1 = Exited rc out err -> rc <> 0 ->
                currentBranch r = None)
         /\ (forall out err,
                r1 = true -> o1 = Exited 0 out err ->
                currentBranch r = or_none (strip out))
         /\ (r1 = true -> r2 = false -> isClean r = None)
         /\ (forall rc out err,
                r1 = true -> r2 = true -> o2 = Exited rc out err -> rc <> 0 ->
                isClean r = Some false).
Proof.
  intro Hr. destruct (get_repos_ready w Hr) as (w' & Hg & _).
  eexists. exists w'. split; [exact Hg|]. split; [|split].
  - unfold do_GET, answer. cbn [String.eqb Ascii.eqb Bool.eqb]. now rewrite Hg.
  - rewrite map_map. cbn [record_of rec_name]. apply map_id.
  - intros r Hin. apply in_map_iff in Hin as (n & <- & _).
    cbn [record_of rec_path rec_name currentBranch isClean]. cbv zeta.
    unfold returned.
    destruct (probe_fields_cases
                (git w (branch_argv (os_path_join (REPOS_DIR w) n)) 5)
                (utf8 w (branch_argv (os_path_join (REPOS_DIR w) n)) 5)
                (git w (status_argv (os_path_join (REPOS_DIR w) n)) 5)
                (utf8 w (status_argv (os_path_join (REPOS_DIR w) n)) 5))
      as (C1 & C2 & C3 & C4 & C5).
    split; [reflexivity|]. split; [|split; [|split; [|split]]].
    + intro H. now rewrite (C1 H).
    + exact C2.
    + exact C3.
    + exact C4.
    + exact C5.
Qed.

Lemma listing_survives_probe_failures_witness :
  exists recs w',
    get_repos (world_of demo_root git_times_out) = (Ok recs, w')
    /\ map rec_name recs = ["demo"]
    /\ forall r, In r recs -> currentBranch r = None /\ isClean r = None.
Proof.
  destruct (listing_survives_probe_failures
              (world_of demo_root git_times_out) eq_refl)
    as (recs & w' & Hg & _ & Hn & Hf).
  exists recs, w'. split; [exact Hg|]. split; [exact Hn|].
  intros r Hin. destruct (Hf r Hin) as (_ & H & _). now apply H.
Defined.

(** C9, as the claim has it, fails: in a repository whose two probes
    exit with code 128, [isClean] is false, not null. *)
Lemma failed_status_probe_is_not_null :
  ~ (forall w recs w' r,
        get_repos w = (Ok recs, w') ->
        In r recs ->
        probe_failed (git w (branch_argv (rec_path r)) 5) = true
        \/ probe_failed (git w (status_argv (rec_path r)) 5) = true ->
        currentBranch r = None /\ isClean r = None).
Proof.
  intro H.
  destruct (H (world_of demo_root git_fails)
              [mkRecord "demo" "/home/u/Repositories/demo" None (Some false)]
              (snd (get_repos (world_of demo_root git_fails)))
              (mkRecord "demo" "/home/u/Repositories/demo" None (Some false)))
    as [_ E].
  - reflexivity.
  - now left.
  - now left.
  - discriminate E.
Qed.

(** ** The scenarios of the specification *)

Example init_demo_on_empty_root :
  fst (do_POST "/init" (init_body "demo") (world_of (Some (Dir [])) git_succeeds))
  = _json (JRepo "demo" "/home/u/Repositories/demo") 201.
Proof. reflexivity. Qed.

Example init_over_a_file :
  fst (do_POST "/init" (init_body "notes")
               (world_of (Some (Dir [("notes", File)])) git_succeeds))
  = _error (already_exists "notes") 409.
Proof. reflexivity. Qed.

Example init_demo_again :
  status (fst (do_POST "/init" (init_body "demo")
                       (world_of demo_root git_succeeds))) = 409.
Proof. reflexivity. Qed.

Example clone_foo :
  fst (do_POST "/clone" (clone_body "https://example.com/foo.git" None)
               (world_of (Some (Dir [])) git_succeeds))
  = _json (JRepo "foo" "/home/u/Repositories/foo") 201.
Proof. reflexivity. Qed.

Example run_status_on_demo :
  fst (do_POST "/run" (run_body "demo" ["status"; "--porcelain"])
               (world_of demo_root git_succeeds))
  = _json (JOutput "") 200.
Proof. reflexivity. Qed.

Example run_on_missing :
  fst (do_POST "/run" (run_body "missing" ["status"])
               (world_of demo_root git_succeeds))
  = _error "Not a git repository: missing" 404.
Proof. reflexivity. Qed.

Example list_empty_root :
  fst (do_GET "/repos" (world_of None git_succeeds)) = _json (JRepos []) 200.
Proof. reflexivity. Qed.

Example list_demo_with_failing_probes :
  fst (do_GET "/repos" (world_of demo_root git_fails))
  = _json (JRepos [mkRecord "demo" "/home/u/Repositories/demo" None (Some false)])
          200.
Proof. reflexivity. Qed.

Example list_root_is_file :
  status (fst (do_GET "/repos" (world_of (Some File) git_succeeds))) = 500.
Proof. reflexivity. Qed.

Example unknown_path :
  fst (do_POST "/nowhere" empty_body (world_of None git_succeeds))
  = mkResponse 404 NoPayload.
Proof. reflexivity. Qed.

(** * Further properties of the script *)

(** ** The name derived from a URL *)

Lemma split_pieces_no_sep (c : ascii) (s : string) :
  Forall (fun p => contains c p = false) (split c s).
Proof.
  induction s as [|a s IH]; simpl.
  - constructor; [reflexivity|constructor].
  - destruct (Ascii.eqb a c) eqn:E.
    + constructor; [reflexivity|exact IH].
    + destruct (split c s) as [|h t].
      * constructor; [|constructor]. simpl. now rewrite E.
      * inversion IH; subst. constructor; [|assumption]. simpl. now rewrite E.
Qed.

Lemma last_Forall (P : string -> Prop) (l : list string) (d : string) :
  Forall P l -> P d -> P (last l d).
Proof.
  induction l as [|x l IH]; intros Hl Hd; [exact Hd|].
  inversion Hl; subst. destruct l as [|y l]; [assumption|].
  now apply IH.
Qed.

Lemma removesuffix_no_char (c : ascii) (suf s : string) :
  contains c s = false -> contains c (removesuffix suf s) = false.
Proof.
  induction s as [|a s IH]; intro H; [reflexivity|].
  cbn [removesuffix]. destruct (String.eqb (String a s) suf); [reflexivity|].
  cbn [contains] in *. apply orb_false_iff in H as [Ha Hs].
  now rewrite Ha, (IH Hs).
Qed.

Lemma derive_name_no_slash (url : string) :
  contains "/" (derive_name url) = false.
Proof.
  unfold derive_name, or_else.
  set (seg := last (split "/" (rstrip_char "/" url)) "").
  assert (Hseg : contains "/" seg = false).
  { apply (last_Forall (fun p => contains "/" p = false));
      [apply split_pieces_no_sep|reflexivity]. }
  destruct (truthy (removesuffix ".git" seg)); [|reflexivity].
  now apply removesuffix_no_char.
Qed.

(** The name derived from a URL is never empty and never holds a
    slash, whatever the URL. *)
Theorem derive_name_plain (url : string) :
  derive_name url <> "" /\ contains "/" (derive_name url) = false.
Proof.
  split; [|apply derive_name_no_slash].
  unfold derive_name, or_else.
  destruct (truthy (removesuffix ".git" _)) eqn:E; [|discriminate].
  now apply truthy_true_iff.
Qed.

Lemma rstrip_char_snoc (c : ascii) (s : string) :
  rstrip_char c (s ++ String c "") = rstrip_char c s.
Proof.
  induction s as [|a s IH]; simpl.
  - now rewrite Ascii.eqb_refl.
  - now rewrite IH.
Qed.

(** A slash added at the end of the URL does not change the derived
    name. *)
Theorem derive_name_trailing_slash (url : string) :
  derive_name (url ++ "/") = derive_name url.
Proof. unfold derive_name. now rewrite rstrip_char_snoc. Qed.

(** ** Trimmed texts *)

Lemma rstrip_idempotent (s : string) : rstrip (rstrip s) = rstrip s.
Proof.
  induction s as [|a s IH]; [reflexivity|].
  cbn [rstrip]. destruct (rstrip s) as [|b r] eqn:E.
  - destruct (isspace a) eqn:Ha; [reflexivity|].
    cbn [rstrip]. now rewrite Ha.
  - cbn [rstrip] in *. now rewrite IH.
Qed.

Lemma lstrip_head (s : string) :
  match lstrip s with
  | EmptyString => True
  | String a _ => isspace a = false
  end.
Proof.
  induction s as [|a s IH]; [exact I|].
  cbn [lstrip]. destruct (isspace a) eqn:Ha; [exact IH|exact Ha].
Qed.

Lemma rstrip_head (s : string) :
  match s with
  | EmptyString => True
  | String a _ => isspace a = false
  end ->
  match rstrip s with
  | EmptyString => True
  | String a _ => isspace a = false
  end.
Proof.
  destruct s as [|a s]; [easy|]. intro Ha.
  cbn [rstrip]. destruct (rstrip s); [now rewrite Ha|exact Ha].
Qed.

Lemma lstrip_fixed (s : string) :
  match s with
  | EmptyString => True
  | String a _ => isspace a = false
  end -> lstrip s = s.
Proof. destruct s as [|a s]; [easy|]. intro Ha. cbn [lstrip]. now rewrite Ha. Qed.

Lemma strip_idempotent (s : string) : strip (strip s) = strip s.
Proof.
  unfold strip.
  rewrite (lstrip_fixed (rstrip (lstrip s))) by apply rstrip_head, lstrip_head.
  apply rstrip_idempotent.
Qed.

(** What [run_git] gives back is trimmed: a returned output has no
    white space at either end, and the message of a [RuntimeError] is
    trimmed and not empty. *)
Theorem run_git_texts_trimmed (repo : string) (args : list string) (w : World) :
  (forall output, fst (run_git repo args w) = Ok output -> strip output = output)
  /\ (forall msg, fst (run_git repo args w) = Raise (RuntimeError msg) ->
                  msg <> "" /\ strip msg = msg).
Proof.
  destruct args as [|a args].
  - split; intros x H; [now inversion H|discriminate H].
  - pose proof (run_git_args repo (a :: args) w ltac:(discriminate)) as H.
    cbv zeta in H. rewrite H. clear H.
    destruct (is_git_dir w _); [|split; intros x H; discriminate H].
    destruct (git w _ 60) as [rc out err| |code|]; cbn [fst];
      [|split; intros x H; discriminate H|split; intros x H; discriminate H
       |split; intros x H; discriminate H].
    destruct (negb (utf8 w _ 60)); [split; intros x H; discriminate H|].
    destruct (negb (rc =? 0) && truthy (strip err)) eqn:E; split; intros x H;
      inversion H; subst.
    + apply andb_true_iff in E as [_ E]. apply truthy_true_iff in E.
      split; [exact E|apply strip_idempotent].
    + destruct (truthy (strip out)); apply strip_idempotent.
Qed.

(** ** The order of the listing *)

Lemma ascii_compare_lt_trans (x y z : ascii) :
  Ascii.compare x y = Lt -> Ascii.compare y z = Lt -> Ascii.compare x z = Lt.
Proof.
  unfold Ascii.compare. rewrite !N.compare_lt_iff. apply N.lt_trans.
Qed.

Lemma string_compare_lt_trans (a : string) :
  forall b c, String.compare a b = Lt -> String.compare b c = Lt ->
              String.compare a c = Lt.
Proof.
  induction a as [|x a IH]; intros [|y b] [|z c]; cbn [String.compare];
    try easy.
  destruct (Ascii.compare x y) eqn:Exy; try easy;
    destruct (Ascii.compare y z) eqn:Eyz; try easy; intros H1 H2.
  - apply Ascii.compare_eq_iff in Exy, Eyz. subst.
    unfold Ascii.compare. rewrite N.compare_refl. now apply (IH b c).
  - apply Ascii.compare_eq_iff in Exy. subst. now rewrite Eyz.
  - apply Ascii.compare_eq_iff in Eyz. subst. now rewrite Exy.
  - now rewrite (ascii_compare_lt_trans x y z Exy Eyz).
Qed.

Lemma name_le_trans (a b c : string) : name_le a b -> name_le b c -> name_le a c.
Proof.
  unfold name_le, String.leb. intros H1 H2.
  destruct (String.compare a b) eqn:Eab; [| |discriminate].
  - apply String.compare_eq_iff in Eab. now subst.
  - destruct (String.compare b c) eqn:Ebc; [| |discriminate].
    + apply String.compare_eq_iff in Ebc. subst. now rewrite Eab.
    + now rewrite (string_compare_lt_trans a b c Eab Ebc).
Qed.

Lemma ltb_name_le (x y : string) : String.ltb x y = true -> name_le x y.
Proof.
  unfold name_le, String.ltb, String.leb. now destruct (String.compare x y).
Qed.

Lemma not_ltb_name_le (x y : string) : String.ltb x y = false -> name_le y x.
Proof.
  unfold name_le, String.ltb, String.leb. rewrite (String.compare_antisym y x).
  now destruct (String.compare x y).
Qed.

Lemma insert_sorted_perm (x : string) (l : list string) :
  Permutation (insert_sorted x l) (x :: l).
Proof.
  induction l as [|y l IH]; cbn [insert_sorted]; [reflexivity|].
  destruct (String.ltb x y); [reflexivity|].
  rewrite IH. apply perm_swap.
Qed.

Lemma sorted_perm (l : list string) : Permutation (sorted l) l.
Proof.
  induction l as [|x l IH]; cbn [sorted]; [reflexivity|].
  rewrite insert_sorted_perm. now constructor.
Qed.

Lemma insert_sorted_ordered (x : string) (l : list string) :
  StronglySorted name_le l -> StronglySorted name_le (insert_sorted x l).
Proof.
  induction 1 as [|y l Hl IH Hy]; cbn [insert_sorted].
  - repeat constructor.
  - destruct (String.ltb x y) eqn:E.
    + constructor; [now constructor|].
      constructor; [now apply ltb_name_le|].
      eapply Forall_impl; [|exact Hy]. intros z Hz.
      eapply name_le_trans; [apply ltb_name_le, E|exact Hz].
    + constructor; [exact IH|].
      eapply Permutation_Forall; [symmetry; apply insert_sorted_perm|].
      constructor; [now apply not_ltb_name_le|exact Hy].
Qed.

Lemma sorted_ordered (l : list string) : StronglySorted name_le (sorted l).
Proof.
  induction l as [|x l IH]; cbn [sorted]; [constructor|].
  now apply insert_sorted_ordered.
Qed.

Lemma filter_ordered (f : string -> bool) (l : list string) :
  StronglySorted name_le l -> StronglySorted name_le (filter f l).
Proof.
  induction 1 as [|y l Hl IH Hy]; cbn [filter]; [constructor|].
  destruct (f y); [|exact IH].
  constructor; [exact IH|].
  apply Forall_forall. intros z Hz. apply filter_In in Hz as [Hz _].
  revert z Hz. now apply Forall_forall.
Qed.

Lemma get_repos_not_ready (w : World) :
  root_ready w = false ->
  exists code, get_repos w = (Raise (OSError code (REPOS_DIR w)), w).
Proof.
  intro Hr. destruct (ensure_not_ready w Hr) as [code Hc].
  exists code. unfold get_repos. unfold bind at 1. now rewrite Hc.
Qed.

(** A listing that [get_repos] returns is the one of the listed
    entries of the root. *)
Lemma get_repos_returns (w w' : World) (recs : list RepoRecord) :
  get_repos w = (Ok recs, w') ->
  root_ready w = true
  /\ recs = map (record_of w) (filter (listed w) (sorted (root_names w))).
Proof.
  intro H. destruct (root_ready w) eqn:Hr.
  - destruct (get_repos_ready w Hr) as (w1 & Hg & _).
    rewrite Hg in H. split; [reflexivity|]. now inversion H.
  - destruct (get_repos_not_ready w Hr) as [code Hc].
    rewrite Hc in H. discriminate H.
Qed.

Lemma names_of_records (w : World) (l : list string) :
  map rec_name (map (record_of w) l) = l.
Proof. rewrite map_map. cbn [record_of rec_name]. apply map_id. Qed.

(** The listing is in increasing order of the names. *)
Theorem listing_ordered (w w' : World) (recs : list RepoRecord) :
  get_repos w = (Ok recs, w') ->
  StronglySorted name_le (map rec_name recs).
Proof.
  intro H. apply get_repos_returns in H as [_ ->].
  rewrite names_of_records. apply filter_ordered, sorted_ordered.
Qed.

Lemma listing_ordered_witness :
  StronglySorted name_le
    (map rec_name
       (match fst (get_repos
                     (world_of (Some (Dir [("b", working_copy); ("a", working_copy)]))
                               git_succeeds)) with
        | Ok recs => recs
        | Raise _ => []
        end)).
Proof.
  apply (listing_ordered
           (world_of (Some (Dir [("b", working_copy); ("a", working_copy)]))
                     git_succeeds)
           (snd (get_repos
                   (world_of (Some (Dir [("b", working_copy); ("a", working_copy)]))
                             git_succeeds)))).
  reflexivity.
Defined.

(** A name is in the listing exactly when it is an entry of the root
    that does not start with a dot, is a directory, and holds a [.git]
    directory. *)
Theorem listing_members (w w' : World) (recs : list RepoRecord) (n : string) :
  get_repos w = (Ok recs, w') ->
  (In n (map rec_name recs) <-> In n (root_names w) /\ listed w n = true).
Proof.
  intro H. apply get_repos_returns in H as [_ ->].
  rewrite names_of_records, filter_In.
  split; intros [Hin Hl]; (split; [|exact Hl]).
  - eapply Permutation_in; [apply sorted_perm|exact Hin].
  - eapply Permutation_in; [symmetry; apply sorted_perm|exact Hin].
Qed.

Lemma listing_members_witness :
  In "demo" (map rec_name [record_of (world_of demo_root git_succeeds) "demo"])
  <-> In "demo" (root_names (world_of demo_root git_succeeds))
      /\ listed (world_of demo_root git_succeeds) "demo" = true.
Proof.
  apply (listing_members
           (world_of demo_root git_succeeds)
           (snd (get_repos (world_of demo_root git_succeeds)))).
  reflexivity.
Defined.

(** ** What a listing does to the world *)

Lemma log_all_app (l1 l2 : list event) (w : World) :
  log_all (l1 ++ l2) w = log_all l1 (log_all l2 w).
Proof. unfold log_all. apply fold_right_app. Qed.

Lemma same_outside_log_all (l : list event) (w : World) :
  same_outside w (log_all l w).
Proof.
  induction l as [|e l IH]; [apply same_outside_refl|].
  eapply same_outside_trans; [exact IH|apply same_outside_log].
Qed.

Lemma trace_log_all (l : list event) (w : World) :
  trace (log_all l w) = (l ++ trace w)%list.
Proof.
  unfold log_all. induction l as [|e l IH]; [reflexivity|].
  cbn [fold_right log trace app]. now rewrite IH.
Qed.

Lemma same_outside_probes_run (w w' : World) (name : string) :
  same_outside w w' -> probes_run w' name = probes_run w name.
Proof.
  intro H. unfold probes_run, returned. rewrite (same_outside_REPOS_DIR _ _ H).
  destruct H as (_ & _ & _ & _ & A5 & _ & A7). now rewrite A5, A7.
Qed.

(** The two probes of one repository: the fields, and the events. *)
Lemma probe_exact (w : World) (name : string) :
  probe (os_path_join (REPOS_DIR w) name) w
  = (Ok (probe_fields
           (git w (branch_argv (os_path_join (REPOS_DIR w) name)) 5)
           (utf8 w (branch_argv (os_path_join (REPOS_DIR w) name)) 5)
           (git w (status_argv (os_path_join (REPOS_DIR w) name)) 5)
           (utf8 w (status_argv (os_path_join (REPOS_DIR w) name)) 5)),
     log_all (probes_run w name) w).
Proof.
  unfold probe, probes_run, returned, try_except, bind, subprocess_run, ret,
    branch_argv, status_argv.
  cbn [andb].
  destruct (git w _ 5) as [rc1 out1 err1| |code1|] eqn:E1;
    cbn [probe_fields exited andb]; [|reflexivity|reflexivity|reflexivity].
  destruct (utf8 w _ 5) eqn:U1; cbn [negb]; [|reflexivity].
  cbn [git utf8 log cp_returncode cp_stdout].
  destruct (git w ["git"; "-C"; _; "status"; "--porcelain"] 5);
    try reflexivity.
  now destruct (utf8 w ["git"; "-C"; _; "status"; "--porcelain"] 5).
Qed.

Lemma scan_exact (names : list string) :
  forall w,
    scan names w
    = (Ok (map (record_of w) (filter (listed w) names)),
       log_all (concat (rev (map (probes_run w) (filter (listed w) names)))) w).
Proof.
  induction names as [|name rest IH]; intro w; [reflexivity|].
  cbn [scan filter].
  destruct (startswith "." name) eqn:Hdot.
  { replace (listed w name) with false by (unfold listed; now rewrite Hdot).
    apply IH. }
  unfold bind at 1, gets at 1. unfold bind at 1, gets at 1.
  destruct (os_path_isdir w _ && is_git_dir w _) eqn:Hrepo; cbn [negb].
  2:{ replace (listed w name) with false.
      - apply IH.
      - unfold listed. rewrite Hdot, <- andb_assoc, Hrepo. reflexivity. }
  replace (listed w name) with true
    by (unfold listed; rewrite Hdot, <- andb_assoc, Hrepo; reflexivity).
  unfold bind at 1. rewrite probe_exact. unfold bind at 1. rewrite IH.
  pose proof (same_outside_log_all (probes_run w name) w) as Ho.
  unfold ret. cbn [map rev].
  rewrite (filter_ext _ _ (fun n => same_outside_listed _ _ n Ho)).
  rewrite (map_ext _ _ (fun n => same_outside_record_of _ _ n Ho)).
  rewrite (map_ext _ _ (fun n => same_outside_probes_run _ _ n Ho)).
  rewrite concat_app, log_all_app. cbn [concat]. now rewrite app_nil_r.
Qed.

Lemma get_repos_exact (w : World) :
  root_ready w = true ->
  get_repos w
  = (Ok (map (record_of w) (filter (listed w) (sorted (root_names w)))),
     log_all (concat (rev (map (probes_run w)
                               (filter (listed w) (sorted (root_names w))))))
             (ensured w)).
Proof.
  intro Hr. destruct (repos_ensured_ready w Hr) as [es Hes].
  unfold get_repos. unfold bind at 1. rewrite (ensure_ready w Hr).
  unfold bind at 1, gets at 1. unfold bind at 1, os_listdir.
  rewrite stat_root, Hes.
  replace (map fst es) with (root_names (ensured w))
    by (unfold root_names; now rewrite Hes).
  rewrite scan_exact, (listed_ensured w).
  f_equal; [f_equal; apply map_ext|do 3 f_equal; apply map_ext];
    intro n; [unfold record_of|unfold probes_run, returned];
    now rewrite REPOS_DIR_ensured, git_ensured, utf8_ensured.
Qed.

(** Everything [get_repos] does to the world: it ensures the root,
    then calls, on each listed repository in the order of the listing,
    the branch probe and after it the status probe, each with a bound
    of 5 seconds; the status probe is left out when the branch probe
    raised, that is when it did not exit by itself or its streams did
    not decode.  Nothing else is started and nothing else is
    written. *)
Theorem get_repos_effects (w : World) :
  root_ready w = true ->
  snd (get_repos w)
  = log_all (concat (rev (map (probes_run w)
                              (filter (listed w) (sorted (root_names w))))))
            (ensured w).
Proof. intro Hr. now rewrite (get_repos_exact w Hr). Qed.

Lemma get_repos_effects_witness :
  trace (snd (get_repos (world_of demo_root git_succeeds)))
  = [Spawned (status_argv "/home/u/Repositories/demo") 5;
     Spawned (branch_argv "/home/u/Repositories/demo") 5].
Proof.
  rewrite (get_repos_effects (world_of demo_root git_succeeds) eq_refl).
  reflexivity.
Defined.

(** A root with no entries, or a root that is missing and can be
    created, is listed as the empty array with status 200, and no
    process is started. *)
Theorem listing_empty_root (w : World) :
  root_ready w = true ->
  root_names w = [] ->
  fst (do_GET "/repos" w) = _json (JRepos []) 200
  /\ spawns (snd (do_GET "/repos" w)) = spawns w.
Proof.
  intros Hr Hn. unfold do_GET, answer. cbn [String.eqb Ascii.eqb Bool.eqb].
  rewrite (get_repos_exact w Hr), Hn. cbn [fst snd sorted filter map rev concat log_all fold_right].
  split; [reflexivity|apply spawns_ensured].
Qed.

Lemma listing_empty_root_witness :
  fst (do_GET "/repos" (world_of None git_fails)) = _json (JRepos []) 200.
Proof.
  apply (listing_empty_root (world_of None git_fails)); reflexivity.
Defined.

(** When the root cannot be ensured (something that is not a directory
    is in its place, or it is missing and cannot be created), the
    listing is answered 500 with the library's text, and the world is
    left as it was. *)
Theorem listing_without_root (w : World) :
  root_ready w = false ->
  exists code,
    do_GET "/repos" w = (_error (lib_str w (OSError code (REPOS_DIR w))) 500, w).
Proof.
  intro Hr. destruct (get_repos_not_ready w Hr) as [code Hc].
  exists code. unfold do_GET, answer. cbn [String.eqb Ascii.eqb Bool.eqb].
  now rewrite Hc.
Qed.

Lemma listing_without_root_witness :
  exists code,
    do_GET "/repos" (world_of (Some File) git_succeeds)
    = (_error (plain_lib_str (OSError code "/home/u/Repositories")) 500,
       world_of (Some File) git_succeeds).
Proof.
  apply (listing_without_root (world_of (Some File) git_succeeds)). reflexivity.
Defined.

(** ** The root *)

(** [ensure_repos_dir] is idempotent: after a call that succeeded the
    root is a directory, a second call changes nothing, and a root that
    was a directory already is left as it was. *)
Theorem ensure_repos_dir_idempotent (w w1 : World) :
  ensure_repos_dir w = (Ok tt, w1) ->
  os_path_isdir w1 (REPOS_DIR w1) = true
  /\ ensure_repos_dir w1 = (Ok tt, w1)
  /\ (os_path_isdir w (REPOS_DIR w) = true -> w1 = w).
Proof.
  unfold ensure_repos_dir, os_makedirs_repos, os_path_isdir.
  rewrite !stat_root.
  destruct (repos w) as [[|es]|] eqn:E; [discriminate| |].
  - intro H. inversion H; subst w1. rewrite E. now repeat split.
  - destruct (mkdir_fault w); [discriminate|].
    intro H. inversion H; subst w1. cbn [repos log with_repos].
    now repeat split.
Qed.

Lemma ensure_repos_dir_idempotent_witness :
  ensure_repos_dir (ensured (world_of None git_succeeds))
  = (Ok tt, ensured (world_of None git_succeeds)).
Proof.
  apply (ensure_repos_dir_idempotent (world_of None git_succeeds)).
  reflexivity.
Defined.

(** ** Repositories in the tree *)

Lemma split_append_sep (c : ascii) (a b : string) :
  contains c a = false -> split c (a ++ String c b) = a :: split c b.
Proof.
  induction a as [|x a IH]; cbn [append contains split]; intro H.
  - now rewrite Ascii.eqb_refl.
  - apply orb_false_iff in H as [Hx Ha]. now rewrite Hx, (IH Ha).
Qed.

Lemma endswith_char_contains (c : ascii) (s : string) :
  endswith_char c s = true -> contains c s = true.
Proof.
  induction s as [|a s IH]; [discriminate|].
  cbn [endswith_char contains]. destruct s as [|b s].
  - intro H. now rewrite H.
  - intro H. rewrite (IH H). apply orb_true_r.
Qed.

(** A valid name is neither the empty component nor [.] nor [..]. *)
Lemma valid_name_component (name : string) :
  valid_name name ->
  String.eqb name "" || String.eqb name "." = false
  /\ String.eqb name ".." = false.
Proof.
  intros (H0 & _ & _ & H3). destruct name as [|a s]; [easy|].
  cbn [startswith] in H3. rewrite Ascii.eqb_sym in H3.
  cbn [String.eqb orb]. destruct (Ascii.eqb a "."); [discriminate H3|].
  now split.
Qed.

(** The [.git] path of a valid name below the root. *)
Lemma join_git_valid_name (w : World) (name : string) :
  valid_name name ->
  os_path_join (os_path_join (REPOS_DIR w) name) ".git"
  = REPOS_DIR w ++ "/" ++ (name ++ "/.git").
Proof.
  intros (H0 & H1 & _ & _).
  rewrite join_REPOS_DIR by now apply contains_slash_startswith.
  unfold os_path_join. cbn [startswith Ascii.eqb Bool.eqb andb].
  rewrite truthy_append_r by reflexivity.
  change (REPOS_DIR w ++ "/" ++ name) with (REPOS_DIR w ++ ("/" ++ name)).
  rewrite <- append_assoc.
  rewrite (endswith_char_append "/" (REPOS_DIR w ++ "/") name)
    by now apply truthy_true_iff.
  destruct (endswith_char "/" name) eqn:E.
  - apply endswith_char_contains in E. congruence.
  - cbn [negb orb]. now rewrite !append_assoc.
Qed.

(** A valid name is a git repository exactly when the root is a
    directory, the name is a directory in it, and [.git] is a directory
    in that one: a [.git] that is a file does not count. *)
Theorem is_git_dir_in_tree (w : World) (name : string) :
  valid_name name ->
  (is_git_dir w (os_path_join (REPOS_DIR w) name) = true
   <-> exists es sub g,
        repos w = Some (Dir es)
        /\ lookup name es = Some (Dir sub)
        /\ lookup ".git" sub = Some (Dir g)).
Proof.
  intro Hv. unfold is_git_dir, os_path_isdir.
  rewrite (join_git_valid_name w name Hv), stat_below_root.
  pose proof Hv as (H0 & H1 & _ & H3).
  change (name ++ "/.git") with (name ++ String "/" ".git").
  rewrite (split_append_sep "/" name ".git" H1).
  change (split "/" ".git") with [".git"].
  destruct (valid_name_component name Hv) as [E1 E2].
  destruct (repos w) as [[|es]|].
  - split; [discriminate|]. intros (es & sub & g & H & _). discriminate H.
  - assert (E : walk [] (Dir es) [name; ".git"]
                = match lookup name es with
                  | Some (Dir sub) =>
                      match lookup ".git" sub with
                      | Some child => Found child
                      | None => Absent
                      end
                  | _ => Absent
                  end).
    { cbn [walk]. rewrite E1, E2.
      destruct (lookup name es) as [[|sub]|]; reflexivity. }
    rewrite E. split.
    + destruct (lookup name es) as [[|sub]|] eqn:En; try discriminate.
      destruct (lookup ".git" sub) as [[|g]|] eqn:Eg; try discriminate.
      intros _. now exists es, sub, g.
    + intros (es' & sub & g & H & Hn & Hg). inversion H; subst es'.
      now rewrite Hn, Hg.
  - split; [discriminate|]. intros (es & sub & g & H & _). discriminate H.
Qed.

Lemma is_git_dir_in_tree_witness :
  is_git_dir (world_of demo_root git_succeeds)
             (os_path_join (REPOS_DIR (world_of demo_root git_succeeds)) "demo")
  = true.
Proof.
  apply (is_git_dir_in_tree (world_of demo_root git_succeeds) "demo").
  - repeat split; discriminate.
  - now exists [("demo", working_copy)], [(".git", Dir [])], [].
Defined.

(** ** The fields of a record *)

Lemma probe_fields_clean (o1 : outcome) (d1 : bool) (o2 : outcome) (d2 : bool) :
  snd (probe_fields o1 d1 o2 d2) = Some true
  <-> exited o1 && d1 = true /\ exited o2 && d2 = true
      /\ exists out err, o2 = Exited 0 out err /\ strip out = "".
Proof.
  destruct o1 as [rc1 out1 err1| |code1|], d1; cbn [probe_fields exited andb snd];
    try (split; [discriminate|intros [H _]; discriminate H]).
  destruct o2 as [rc2 out2 err2| |code2|], d2; cbn [exited andb snd];
    try (split; [discriminate|intros [_ [H _]]; discriminate H]).
  split.
  - intro H. inversion H as [E]. apply andb_true_iff in E as [Erc Eout].
    apply Z.eqb_eq in Erc. apply String.eqb_eq in Eout. subst rc2.
    split; [reflexivity|]. split; [reflexivity|]. now exists out2, err2.
  - intros [_ [_ (out & err & H & Hout)]]. inversion H; subst.
    rewrite Hout. reflexivity.
Qed.

Lemma probe_fields_branch (o1 : outcome) (d1 : bool) (o2 : outcome) (d2 : bool)
      (b : string) :
  fst (probe_fields o1 d1 o2 d2) = Some b
  <-> b <> "" /\ exited o1 && d1 = true
      /\ exists out err, o1 = Exited 0 out err /\ strip out = b.
Proof.
  destruct o1 as [rc1 out1 err1| |code1|], d1; cbn [probe_fields exited andb fst];
    try (split; [discriminate|intros [_ [H _]]; discriminate H]).
  assert (E : fst (match o2, d2 with
                   | Exited rc2 out2 _, true =>
                       (if rc1 =? 0 then or_none (strip out1) else None,
                        Some ((rc2 =? 0) && String.eqb (strip out2) ""))
                   | _, _ => (if rc1 =? 0 then or_none (strip out1) else None, None)
                   end)
              = if rc1 =? 0 then or_none (strip out1) else None)
    by now destruct o2, d2.
  rewrite E. clear E. unfold or_none. split.
  - destruct (rc1 =? 0) eqn:Erc; [|discriminate].
    destruct (truthy (strip out1)) eqn:Et; [|discriminate].
    intro H. inversion H; subst b. apply Z.eqb_eq in Erc. subst rc1.
    split; [now apply truthy_true_iff|]. split; [reflexivity|].
    now exists out1, err1.
  - intros [Hb [_ (out & err & H & Hs)]]. inversion H; subst.
    apply truthy_true_iff in Hb. cbn. now rewrite Hb.
Qed.

(** In a listing, a record says [isClean = true] exactly when both
    probes handed over a result (each exited by itself with streams
    that decode) and the status probe exited with code 0 and a blank
    standard output; it names a branch exactly when the branch probe
    handed over a result with code 0, and then the branch is the
    trimmed standard output, which is not empty. *)
Theorem record_fields (w w' : World) (recs : list RepoRecord) (r : RepoRecord) :
  get_repos w = (Ok recs, w') ->
  In r recs ->
  let o1 := git w (branch_argv (rec_path r)) 5 in
  let o2 := git w (status_argv (rec_path r)) 5 in
  let r1 := returned w (branch_argv (rec_path r)) 5 in
  let r2 := returned w (status_argv (rec_path r)) 5 in
  (isClean r = Some true
   <-> r1 = true /\ r2 = true
       /\ exists out err, o2 = Exited 0 out err /\ strip out = "")
  /\ (forall b,
         currentBranch r = Some b
         <-> b <> "" /\ r1 = true
             /\ exists out err, o1 = Exited 0 out err /\ strip out = b).
Proof.
  intros H Hin. apply get_repos_returns in H as [_ ->].
  apply in_map_iff in Hin as (n & <- & _).
  cbn [record_of rec_path currentBranch isClean]. cbv zeta. unfold returned.
  split; [apply probe_fields_clean|intro b; apply probe_fields_branch].
Qed.

Lemma record_fields_witness :
  isClean (record_of (world_of demo_root git_succeeds) "demo") = Some true.
Proof.
  destruct (record_fields
              (world_of demo_root git_succeeds)
              (snd (get_repos (world_of demo_root git_succeeds)))
              [record_of (world_of demo_root git_succeeds) "demo"]
              (record_of (world_of demo_root git_succeeds) "demo")
              eq_refl (or_introl eq_refl)) as [H _].
  apply H. split; [reflexivity|]. split; [reflexivity|]. now exists "", "".
Defined.

(** ** Conflicts and names in [clone_repo] *)

(** Cloning onto a valid name that exists already is answered 409 with
    the conflict message, and the world is left as it was: no process
    is started. *)
Theorem clone_existing_is_conflict (url : string) (name : option string)
        (w : World) :
  url <> "" ->
  valid_name (clone_name url name) ->
  os_path_exists w (os_path_join (REPOS_DIR w) (clone_name url name)) = true ->
  do_POST "/clone" (clone_body url name) w
  = (_error (already_exists (clone_name url name)) 409, w).
Proof.
  intros Hu Hv Hex. apply truthy_true_iff in Hu.
  destruct (exists_valid_name_root w _ Hv Hex) as [es Hes].
  assert (Hr : root_ready w = true) by (unfold root_ready; now rewrite Hes).
  assert (He : ensured w = w) by (unfold ensured; now rewrite Hes).
  rewrite (post_clone_truthy _ _ _ Hu). unfold answer.
  rewrite (clone_repo_ready _ _ _ Hu Hr). cbv zeta.
  now rewrite (clone_check_valid _ Hv), He, Hex.
Qed.

Lemma clone_existing_is_conflict_witness :
  status (fst (do_POST "/clone" (clone_body "https://example.com/demo.git" None)
                       (world_of demo_root git_succeeds))) = 409.
Proof.
  rewrite (clone_existing_is_conflict
             "https://example.com/demo.git" None (world_of demo_root git_succeeds)
             ltac:(discriminate) ltac:(repeat split; discriminate) eq_refl).
  reflexivity.
Defined.

(** With the name left out, [clone_repo] raises the [ValueError] of
    an invalid name exactly when the derived name holds a backslash or
    starts with a dot: a derived name is never rejected for a slash or
    for being empty. *)
Theorem clone_derived_name_rejection (url : string) (w : World) :
  url <> "" ->
  root_ready w = true ->
  (fst (clone_repo url None w) = Raise (ValueError "Invalid repo name")
   <-> contains "\" (derive_name url) = true
       \/ startswith "." (derive_name url) = true).
Proof.
  intros Hu Hr. apply truthy_true_iff in Hu.
  rewrite (clone_repo_ready _ _ _ Hu Hr). cbv zeta. cbn [clone_name].
  rewrite (derive_name_no_slash url). cbn [orb].
  destruct (contains "\" (derive_name url)) eqn:Eb; cbn [orb].
  - split; [now left|reflexivity].
  - destruct (startswith "." (derive_name url)) eqn:Ed.
    + split; [now right|reflexivity].
    + split; [|now intros [H|H]].
      destruct (os_path_exists (ensured w) _); [discriminate|].
      rewrite subprocess_run_check.
      destruct (git (ensured w) _ 300) as [rc out err| |code|]; cbn [fst];
        try discriminate.
      destruct (true && negb (utf8 (ensured w) _ 300)); [discriminate|].
      now destruct (rc =? 0).
Qed.

Lemma clone_derived_name_rejection_witness :
  fst (clone_repo "https://example.com/.hidden" None
                  (world_of (Some (Dir [])) git_succeeds))
  = Raise (ValueError "Invalid repo name").
Proof.
  apply (clone_derived_name_rejection
           "https://example.com/.hidden" (world_of (Some (Dir [])) git_succeeds)
           ltac:(discriminate) eq_refl).
  now right.
Defined.

(** ** Every way through [init_repo] and [clone_repo] *)

Lemma init_check_passed (s : string) :
  negb (truthy s) || contains "/" s || contains "\" s || startswith "." s = false ->
  valid_name s.
Proof.
  intro H. apply orb_false_iff in H as [H H3]. apply orb_false_iff in H as [H H2].
  apply orb_false_iff in H as [H0 H1]. apply negb_false_iff in H0.
  repeat split; try assumption. now apply truthy_true_iff.
Qed.

(** The four ways through [init_repo]. *)
Lemma init_repo_cases (name : string) (w : World) :
  let full := os_path_join (REPOS_DIR w) name in
  let argv := ["git"; "init"; full] in
  (~ valid_name name
   /\ init_repo name w = (Raise (ValueError "Invalid repo name"), w))
  \/ (valid_name name /\ root_ready w = false
      /\ exists code, init_repo name w = (Raise (OSError code (REPOS_DIR w)), w))
  \/ (valid_name name /\ root_ready w = true /\ os_path_exists w full = true
      /\ init_repo name w = (Raise (FileExistsError (already_exists name)), w))
  \/ (valid_name name /\ root_ready w = true /\ os_path_exists w full = false
      /\ init_repo name w
         = (match git w argv 10 with
            | Exited rc out err =>
                if rc =? 0 then Ok (name, full)
                else Raise (CalledProcessError rc argv out err)
            | TimedOut => Raise (TimeoutExpired argv 10)
            | SpawnFailed code => Raise (OSError code "git")
            | Refused => Raise (ValueError "embedded null byte")
            end, log (Spawned argv 10) (ensured w))).
Proof.
  cbv zeta.
  destruct (negb (truthy name) || contains "/" name || contains "\" name
            || startswith "." name) eqn:Ec.
  - left. split.
    + intro Hv. rewrite (init_check_valid _ Hv) in Ec. discriminate.
    + unfold init_repo. now rewrite Ec.
  - right. pose proof (init_check_passed _ Ec) as Hv.
    destruct (root_ready w) eqn:Hr.
    + right. destruct (os_path_exists w (os_path_join (REPOS_DIR w) name)) eqn:Hex.
      * left. refine (conj Hv (conj eq_refl (conj eq_refl _))).
        destruct (exists_valid_name_root w _ Hv Hex) as [es Hes].
        rewrite (init_repo_valid _ _ Hv Hr). cbv zeta. rewrite Hex.
        unfold ensured. now rewrite Hes.
      * right. refine (conj Hv (conj eq_refl (conj eq_refl _))).
        exact (init_repo_fresh _ _ Hv Hr Hex).
    + left. refine (conj Hv (conj eq_refl _)).
      destruct (ensure_not_ready w Hr) as [code Hc]. exists code.
      unfold init_repo. rewrite Ec. unfold bind at 1. now rewrite Hc.
Qed.

(** The check of [clone_repo] passes on the names that are valid or
    empty. *)
Lemma clone_check_passed (s : string) :
  contains "/" s || contains "\" s || startswith "." s = false ->
  s = "" \/ valid_name s.
Proof.
  intro H. destruct s as [|a s]; [now left|right].
  apply orb_false_iff in H as [H H3]. apply orb_false_iff in H as [H1 H2].
  now repeat split.
Qed.

(** The ways through [clone_repo] for a URL that is not empty. *)
Lemma clone_repo_cases (url : string) (name : option string) (w : World) :
  truthy url = true ->
  let n := clone_name url name in
  let full := os_path_join (REPOS_DIR w) n in
  let argv := ["git"; "clone"; url; full] in
  (root_ready w = false
   /\ exists code, clone_repo url name w = (Raise (OSError code (REPOS_DIR w)), w))
  \/ (root_ready w = true /\ n <> "" /\ ~ valid_name n
      /\ clone_repo url name w
         = (Raise (ValueError "Invalid repo name"), ensured w))
  \/ (root_ready w = true
      /\ (n = "" \/ (valid_name n /\ os_path_exists w full = true))
      /\ clone_repo url name w
         = (Raise (FileExistsError (already_exists n)), ensured w))
  \/ (root_ready w = true /\ valid_name n /\ os_path_exists w full = false
      /\ clone_repo url name w
         = (match git w argv 300 with
            | Exited rc out err =>
                if negb (utf8 w argv 300) then Raise UnicodeDecodeError
                else if rc =? 0 then Ok (n, full)
                else Raise (CalledProcessError rc argv out err)
            | TimedOut => Raise (TimeoutExpired argv 300)
            | SpawnFailed code => Raise (OSError code "git")
            | Refused => Raise (ValueError "embedded null byte")
            end, log (Spawned argv 300) (ensured w))).
Proof.
  intro Hu. cbv zeta.
  destruct (root_ready w) eqn:Hr.
  2:{ left. split; [reflexivity|]. now apply clone_repo_not_ready. }
  right.
  destruct (contains "/" (clone_name url name) || contains "\" (clone_name url name)
            || startswith "." (clone_name url name)) eqn:Ec.
  - left. split; [reflexivity|]. split; [|split].
    + intro E. rewrite E in Ec. discriminate.
    + intro Hv. rewrite (clone_check_valid _ Hv) in Ec. discriminate.
    + rewrite (clone_repo_ready _ _ _ Hu Hr). cbv zeta. now rewrite Ec.
  - right. destruct (clone_check_passed _ Ec) as [E|Hv].
    + left. split; [reflexivity|]. split; [now left|].
      rewrite (clone_repo_ready _ _ _ Hu Hr). cbv zeta. rewrite Ec, E.
      now rewrite (empty_name_exists w Hr).
    + pose proof (exists_valid_name_ensured w _ Hv) as He.
      rewrite REPOS_DIR_ensured in He.
      destruct (os_path_exists w (os_path_join (REPOS_DIR w) (clone_name url name)))
        eqn:Hex.
      * left. split; [reflexivity|]. split; [now right|].
        rewrite (clone_repo_ready _ _ _ Hu Hr). cbv zeta. now rewrite Ec, He.
      * right. refine (conj eq_refl (conj Hv (conj eq_refl _))).
        exact (clone_repo_fresh _ _ _ Hu Hv Hr Hex).
Qed.

(** ** The answers of the router *)

Lemma respond_init_created (r : result (string * string)) (w : World) :
  status (respond_init r w) = 201 <-> exists v, r = Ok v.
Proof.
  destruct r as [[n p]|e]; cbn [respond_init].
  - split; [now exists (n, p)|reflexivity].
  - split; [|now intros [v H]].
    now destruct (is_FileExistsError e), (is_ValueError e).
Qed.

Lemma respond_clone_created (r : result (string * string)) (w : World) :
  status (respond_clone r w) = 201 <-> exists v, r = Ok v.
Proof.
  destruct r as [[n p]|e]; cbn [respond_clone].
  - split; [now exists (n, p)|reflexivity].
  - split; [|now intros [v H]].
    destruct (is_FileExistsError e), (is_ValueError e); try discriminate.
    now destruct e.
Qed.

(** A POST to [/init] is answered 201 exactly when the name is valid,
    the root is there or can be created, nothing exists at the target
    path, and [git init] exits with code 0; the answer then carries the
    name and the path [REPOS_DIR/name], and [git init] on that path,
    with a bound of 10 seconds, is the one process that was started. *)
Theorem init_created_iff (name : string) (w : World) :
  let full := os_path_join (REPOS_DIR w) name in
  let argv := ["git"; "init"; full] in
  let answered := do_POST "/init" (init_body name) w in
  (status (fst answered) = 201
   <-> valid_name name /\ root_ready w = true /\ os_path_exists w full = false
       /\ exists out err, git w argv 10 = Exited 0 out err)
  /\ (status (fst answered) = 201 ->
      fst answered = _json (JRepo name (REPOS_DIR w ++ "/" ++ name)) 201
      /\ spawns (snd answered) = Spawned argv 10 :: spawns w).
Proof.
  cbv zeta. destruct (truthy name) eqn:Ht.
  2:{ assert (E : do_POST "/init" (init_body name) w
                  = (_error "Missing 'name'" 400, w)).
      { unfold do_POST, init_body.
        cbn [String.eqb Ascii.eqb Bool.eqb body_name]. now rewrite Ht. }
      rewrite E. cbn [fst status _error _json]. split; [split|]; try discriminate.
      intros ((H0 & _) & _). apply truthy_true_iff in H0. congruence. }
  rewrite (post_init_truthy _ _ Ht). unfold answer.
  destruct (init_repo_cases name w)
    as [(Hn & E)|[(Hv & Hr & code & E)|[(Hv & Hr & Hex & E)|(Hv & Hr & Hex & E)]]];
    rewrite E; cbn [fst snd].
  - split; [split|]; [discriminate|now intros (Hv & _)|discriminate].
  - split; [split|]; [now destruct code|intros (_ & H & _); congruence
                      |now destruct code].
  - split; [split|]; [discriminate|intros (_ & _ & H & _); congruence|discriminate].
  - destruct (git w _ 10) as [rc out err| |code|] eqn:Eg.
    + destruct (rc =? 0) eqn:Erc.
      * apply Z.eqb_eq in Erc. subst rc. cbn [respond_init status _json].
        split; [split; [intros _|reflexivity]|intros _].
        -- refine (conj Hv (conj Hr (conj Hex _))). now exists out, err.
        -- split.
           ++ now rewrite join_REPOS_DIR
                by (apply contains_slash_startswith, Hv).
           ++ unfold spawns. cbn [trace log filter is_spawn].
              fold (spawns (ensured w)). now rewrite spawns_ensured.
      * split; [split|]; [discriminate| |discriminate].
        intros (_ & _ & _ & out' & err' & H). inversion H; subst.
        discriminate Erc.
    + split; [split|]; [discriminate| |discriminate].
      intros (_ & _ & _ & out' & err' & H). discriminate H.
    + split; [split|]; [now destruct code| |now destruct code].
      intros (_ & _ & _ & out' & err' & H). discriminate H.
    + split; [split|]; [discriminate| |discriminate].
      intros (_ & _ & _ & out' & err' & H). discriminate H.
Qed.

Lemma init_created_iff_witness :
  status (fst (do_POST "/init" (init_body "demo")
                       (world_of (Some (Dir [])) git_succeeds))) = 201.
Proof.
  apply (init_created_iff "demo" (world_of (Some (Dir [])) git_succeeds)).
  refine (conj _ (conj eq_refl (conj eq_refl _))).
  - repeat split; discriminate.
  - now exists "", "".
Defined.

(** A POST to [/clone] with a URL that is not empty is answered 201
    exactly when the supplied or derived name is valid (so not empty
    either), the root is there or can be created, nothing exists at the
    target path, and [git clone] exits with code 0 and streams that
    decode as text; the answer then carries the name and the path
    [REPOS_DIR/name], and [git clone] of the URL into that path, with a
    bound of 300 seconds, is the one call of [subprocess.run]. *)
Theorem clone_created_iff (url : string) (name : option string) (w : World) :
  url <> "" ->
  let n := clone_name url name in
  let full := os_path_join (REPOS_DIR w) n in
  let argv := ["git"; "clone"; url; full] in
  let answered := do_POST "/clone" (clone_body url name) w in
  (status (fst answered) = 201
   <-> valid_name n /\ root_ready w = true /\ os_path_exists w full = false
       /\ utf8 w argv 300 = true
       /\ exists out err, git w argv 300 = Exited 0 out err)
  /\ (status (fst answered) = 201 ->
      fst answered = _json (JRepo n (REPOS_DIR w ++ "/" ++ n)) 201
      /\ spawns (snd answered) = Spawned argv 300 :: spawns w).
Proof.
  intro Hu. apply truthy_true_iff in Hu. cbv zeta.
  rewrite (post_clone_truthy _ _ _ Hu). unfold answer.
  destruct (clone_repo_cases url name w Hu)
    as [(Hr & code & E)|[(Hr & Hn & Hv & E)|[(Hr & Hc & E)|(Hr & Hv & Hex & E)]]];
    rewrite E; cbn [fst snd].
  - split; [split|]; [now destruct code|intros (_ & H & _); congruence
                      |now destruct code].
  - split; [split|]; [discriminate|now intros (H & _)|discriminate].
  - split; [split|]; [discriminate| |discriminate].
    intros (Hv & _ & Hex & _). destruct Hc as [Hc|[_ Hc]]; [|congruence].
    now destruct Hv.
  - destruct (git w _ 300) as [rc out err| |code|] eqn:Eg.
    + destruct (utf8 w _ 300) eqn:Ed; cbn [negb].
      2:{ split; [split|]; [discriminate| |discriminate].
          intros (_ & _ & _ & H & _). discriminate H. }
      destruct (rc =? 0) eqn:Erc.
      * apply Z.eqb_eq in Erc. subst rc. cbn [respond_clone status _json].
        split; [split; [intros _|reflexivity]|intros _].
        -- refine (conj Hv (conj Hr (conj Hex (conj eq_refl _)))).
           now exists out, err.
        -- split.
           ++ now rewrite join_REPOS_DIR
                by (apply contains_slash_startswith, Hv).
           ++ unfold spawns. cbn [trace log filter is_spawn].
              fold (spawns (ensured w)). now rewrite spawns_ensured.
      * split; [split|]; [discriminate| |discriminate].
        intros (_ & _ & _ & _ & out' & err' & H). inversion H; subst.
        discriminate Erc.
    + split; [split|]; [discriminate| |discriminate].
      intros (_ & _ & _ & _ & out' & err' & H). discriminate H.
    + split; [split|]; [now destruct code| |now destruct code].
      intros (_ & _ & _ & _ & out' & err' & H). discriminate H.
    + split; [split|]; [discriminate| |discriminate].
      intros (_ & _ & _ & _ & out' & err' & H). discriminate H.
Qed.

Lemma clone_created_iff_witness :
  status (fst (do_POST "/clone" (clone_body "https://example.com/foo.git" None)
                       (world_of (Some (Dir [])) git_succeeds))) = 201.
Proof.
  apply (clone_created_iff "https://example.com/foo.git" None
                           (world_of (Some (Dir [])) git_succeeds)
                           ltac:(discriminate)).
  refine (conj _ (conj eq_refl (conj eq_refl (conj eq_refl _)))).
  - repeat split; discriminate.
  - now exists "", "".
Defined.

Lemma spawns_log_spawned (argv : list string) (t : nat) (w : World) :
  spawns (log (Spawned argv t) (ensured w)) = Spawned argv t :: spawns w.
Proof.
  unfold spawns. cbn [trace log filter is_spawn].
  fold (spawns (ensured w)). now rewrite spawns_ensured.
Qed.

(** A POST starts at most one process: none, or [git init] with a
    bound of 10 seconds on [/init], [git clone] with a bound of 300
    seconds on [/clone], [git -C] with a bound of 60 seconds on
    [/run]. *)
Theorem post_starts_at_most_one_process (path : string) (body : Body)
        (w : World) :
  let w' := snd (do_POST path body w) in
  spawns w' = spawns w
  \/ exists argv t,
      spawns w' = Spawned argv t :: spawns w
      /\ ((path = "/init" /\ t = 10%nat /\ exists full, argv = ["git"; "init"; full])
          \/ (path = "/clone" /\ t = 300%nat
              /\ exists url full, argv = ["git"; "clone"; url; full])
          \/ (path = "/run" /\ t = 60%nat
              /\ exists full args, argv = "git" :: "-C" :: full :: args)).
Proof.
  cbv zeta. unfold do_POST.
  destruct (String.eqb path "/init") eqn:E1.
  { apply String.eqb_eq in E1. subst path.
    destruct (body_name body) as [name|]; [|now left].
    destruct (truthy name); cbn [negb]; [|now left].
    unfold answer.
    destruct (init_repo_cases name w)
      as [(_ & E)|[(_ & _ & code & E)|[(_ & _ & _ & E)|(_ & _ & _ & E)]]];
      rewrite E; cbn [snd]; try (now left).
    right. eexists _, _. split; [apply spawns_log_spawned|].
    left. repeat split. now eexists. }
  destruct (String.eqb path "/clone") eqn:E2.
  { apply String.eqb_eq in E2. subst path.
    destruct (body_url body) as [url|]; [|now left].
    destruct (truthy url) eqn:Hu; cbn [negb]; [|now left].
    unfold answer.
    destruct (clone_repo_cases url (body_name body) w Hu)
      as [(_ & code & E)|[(_ & _ & _ & E)|[(_ & _ & E)|(_ & _ & _ & E)]]];
      rewrite E; cbn [snd]; try (left; apply spawns_ensured); try (now left).
    right. eexists _, _. split; [apply spawns_log_spawned|].
    right; left. repeat split. now eexists _, _. }
  destruct (String.eqb path "/run") eqn:E3; [|now left].
  apply String.eqb_eq in E3. subst path.
  destruct (body_repo body) as [repo|]; [|now left].
  destruct (body_args body) as [args|]; [|now left].
  destruct (truthy repo); cbn [negb]; [|now left].
  unfold answer. destruct args as [|a args]; [now left|].
  pose proof (run_git_args repo (a :: args) w ltac:(discriminate)) as H.
  cbv zeta in H. rewrite H.
  destruct (is_git_dir w _); cbn [snd]; [|now left].
  right. eexists _, _. split; [reflexivity|].
  right; right. repeat split. now eexists _, _.
Qed.



(** A POST whose required field is missing or empty is answered 400
    and changes nothing: no directory is made, no process is started. *)
Theorem post_missing_field (body : Body) (w : World) :
  (missing (body_name body) = true ->
   do_POST "/init" body w = (_error "Missing 'name'" 400, w))
  /\ (missing (body_url body) = true ->
      do_POST "/clone" body w = (_error "Missing 'url'" 400, w))
  /\ (missing (body_repo body) = true \/ body_args body = None ->
      do_POST "/run" body w = (_error "Missing 'repo' or 'args' (list)" 400, w)).
Proof.
  unfold do_POST, missing. cbn [String.eqb Ascii.eqb Bool.eqb].
  split; [|split].
  - destruct (body_name body) as [name|]; [|reflexivity]. now intros ->.
  - destruct (body_url body) as [url|]; [|reflexivity]. now intros ->.
  - destruct (body_repo body) as [repo|]; [|reflexivity].
    destruct (body_args body) as [args|]; [|reflexivity].
    intros [->|H]; [reflexivity|discriminate H].
Qed.

Lemma post_missing_field_witness :
  do_POST "/run" (mkBody None None (Some "demo") None)
          (world_of demo_root git_succeeds)
  = (_error "Missing 'repo' or 'args' (list)" 400, world_of demo_root git_succeeds).
Proof.
  apply (post_missing_field (mkBody None None (Some "demo") None)
                            (world_of demo_root git_succeeds)).
  now right.
Defined.

(** ** Absolute paths and a missing [git] in [run_git] *)

(** A repository string that starts with a slash replaces the root:
    [run_git] tests and uses that absolute path as it is. *)
Theorem run_git_absolute_repo (repo : string) (args : list string) (w : World) :
  startswith "/" repo = true ->
  args <> [] ->
  (is_git_dir w repo = false ->
   run_git repo args w
   = (Raise (FileNotFoundError ("Not a git repository: " ++ repo)), w))
  /\ (is_git_dir w repo = true ->
      trace (snd (run_git repo args w))
      = Spawned (["git"; "-C"; repo] ++ args)%list 60 :: trace w).
Proof.
  intros Hs Ha.
  pose proof (run_git_args repo args w Ha) as H. cbv zeta in H.
  assert (Hj : os_path_join (REPOS_DIR w) repo = repo)
    by (unfold os_path_join; now rewrite Hs).
  rewrite Hj in H. rewrite H.
  split; intros ->; reflexivity.
Qed.

Lemma run_git_absolute_repo_witness :
  run_git "/etc" ["status"] (world_of demo_root git_succeeds)
  = (Raise (FileNotFoundError "Not a git repository: /etc"),
     world_of demo_root git_succeeds).
Proof.
  apply (run_git_absolute_repo "/etc" ["status"] (world_of demo_root git_succeeds));
    [reflexivity|discriminate|reflexivity].
Defined.

(** When [git] cannot be started because the program is not found,
    [/run] on a git repository answers 404, through its clause for
    [FileNotFoundError], while [/init] on a fresh valid name answers
    500. *)
Theorem git_not_found_answers (w : World) :
  (forall repo args,
      repo <> "" -> args <> [] ->
      is_git_dir w (os_path_join (REPOS_DIR w) repo) = true ->
      git w (["git"; "-C"; os_path_join (REPOS_DIR w) repo] ++ args)%list 60
      = SpawnFailed ENOENT ->
      fst (do_POST "/run" (run_body repo args) w)
      = _error (lib_str w (OSError ENOENT "git")) 404)
  /\ (forall name,
         valid_name name -> root_ready w = true ->
         os_path_exists w (os_path_join (REPOS_DIR w) name) = false ->
         git w ["git"; "init"; os_path_join (REPOS_DIR w) name] 10
         = SpawnFailed ENOENT ->
         fst (do_POST "/init" (init_body name) w)
         = _error (lib_str w (OSError ENOENT "git")) 500).
Proof.
  split.
  - intros repo args Hr Ha Hd Hg. apply truthy_true_iff in Hr.
    rewrite (post_run_truthy _ _ _ Hr). unfold answer.
    pose proof (run_git_args repo args w Ha) as H. cbv zeta in H.
    rewrite Hd, Hg in H. now rewrite H.
  - intros name Hv Hr Hex Hg.
    rewrite post_init_truthy by (apply truthy_true_iff; apply Hv).
    unfold answer.
    pose proof (init_repo_fresh _ _ Hv Hr Hex) as H. cbv zeta in H.
    rewrite Hg in H. rewrite H.
    cbn [fst respond_init is_FileExistsError is_ValueError py_str lib_str log].
    now rewrite lib_str_ensured.
Qed.

Lemma git_not_found_answers_witness :
  fst (do_POST "/run" (run_body "demo" ["status"]) (world_of demo_root git_missing))
  = _error (plain_lib_str (OSError ENOENT "git")) 404.
Proof.
  destruct (git_not_found_answers (world_of demo_root git_missing)) as [H _].
  apply (H "demo" ["status"]); [discriminate|discriminate|reflexivity|reflexivity].
Defined.

Lemma run_git_texts_trimmed_witness :
  strip "fatal: not a git repository" = "fatal: not a git repository".
Proof.
  destruct (run_git_texts_trimmed "demo" ["status"] (world_of demo_root git_fails))
    as [_ H].
  apply (H "fatal: not a git repository"). reflexivity.
Defined.


(** The listing is answered 200 exactly when the root is a directory
    or can be created; whatever the probes do, nothing else makes it
    fail. *)
Theorem listing_ok_iff (w : World) :
  status (fst (do_GET "/repos" w)) = 200 <-> root_ready w = true.
Proof.
  destruct (root_ready w) eqn:Hr.
  - split; [reflexivity|intros _].
    unfold do_GET, answer. cbn [String.eqb Ascii.eqb Bool.eqb].
    now rewrite (get_repos_exact w Hr).
  - destruct (get_repos_not_ready w Hr) as [code H].
    unfold do_GET, answer. cbn [String.eqb Ascii.eqb Bool.eqb]. rewrite H.
    split; discriminate.
Qed.

Lemma listing_ok_iff_witness :
  status (fst (do_GET "/repos" (world_of demo_root git_times_out))) = 200.
Proof.
  apply (listing_ok_iff (world_of demo_root git_times_out)). reflexivity.
Defined.
